(** * Redfin land-sales pipeline: acquisition ledger and price-per-acre aggregation

  A shallow embedding of the JavaScript sources of the Redfin automation
  (the batch downloader [downloadRedfinData], its helpers in [utils.js],
  the single-query script [simpleDownload.js], and the CSV processor with
  [processRecord], [categorizeLotSize], [generateMarketMatrix],
  [calculateMedian] and [calculatePercentile]).

  Conventions of the embedding.
  - A JavaScript number is an exact rational ([Q]).  Comparisons against the
    literals of the source are exact on finite doubles; sums, products and
    quotients are the real-number results, without binary64 rounding.  The
    value [NaN] (and [undefined]) is [None] wherever the code can produce it.
    The figures that the statements quote are evaluated on binary64 as well
    (module [Binary64]).
  - A plain object used as a dictionary is a finite map ([gmap]) on its own
    string keys; names inherited from [Object.prototype] are not modelled.
  - An [await] is a sequential call; what the browser, the clock and the
    network answer is supplied by an explicit environment record. *)

From Stdlib Require Import Ascii String QArith Qround Qabs Qpower Lqa Lia PrimFloat.
From stdpp Require Import base option list strings gmap sorting pretty.

(** ** Built-ins of the language *)

Module JS.

(** [ToBoolean] on a string: only the empty string is falsy. *)
Definition truthy (s : string) : bool :=
  match s with EmptyString => false | _ => true end.

(** [a || b] where [a] may be [undefined] (a missing property) and [b] is the
    fallback that is evaluated when [a] is falsy. *)
Definition or_else (a : option string) (b : string) : string :=
  match a with
  | Some s => if truthy s then s else b
  | None => b
  end.

(** [ToBoolean] on a number: [NaN] and zero are falsy. *)
Definition truthy_num (x : option Q) : bool :=
  match x with
  | Some q => negb (Qeq_bool q 0)
  | None => false
  end.

(** [Math.floor] and [Math.ceil]. *)
Definition floor (x : Q) : Z := Qfloor x.
Definition ceil (x : Q) : Z := Qceiling x.

(** [arr[k]] for a numeric index: [undefined] outside the array. *)
Definition index {A} (arr : list A) (k : Z) : option A :=
  if (k <? 0)%Z then None else arr !! Z.to_nat k.

(** *** [parseFloat]

    The argument is trimmed of leading white space, then the longest prefix
    that is a decimal literal (sign, digits, fraction, exponent) is read.
    [None] is [NaN].  Only ASCII white space is recognised, and the token
    [Infinity] is not part of the model (it reads as [NaN] here). *)
Definition is_ws (c : ascii) : bool :=
  match c with
  | " " | "009" | "010" | "011" | "012" | "013" => true
  | _ => false
  end%char.

Definition digit_val (c : ascii) : option N :=
  let n := N_of_ascii c in
  if ((48 <=? n) && (n <=? 57))%N then Some (n - 48)%N else None.

Fixpoint skip_ws (s : string) : string :=
  match s with
  | String c r => if is_ws c then skip_ws r else s
  | EmptyString => s
  end.

(** Reads a maximal run of decimal digits, continuing the value [acc]; also
    returns how many digits were read and the unread rest. *)
Fixpoint digits (s : string) (acc : N) (n : nat) : N * nat * string :=
  match s with
  | String c r =>
      match digit_val c with
      | Some d => digits r (acc * 10 + d)%N (S n)
      | None => (acc, n, s)
      end
  | EmptyString => (acc, n, s)
  end.

Definition read_sign (s : string) : bool * string :=
  match s with
  | String "-" r => (true, r)
  | String "+" r => (false, r)
  | _ => (false, s)
  end.

Definition read_exponent (s : string) : Z :=
  match s with
  | String c r =>
      if (Ascii.eqb c "e" || Ascii.eqb c "E")%char then
        let '(neg, r') := read_sign r in
        let '(ev, ne, _) := digits r' 0%N 0%nat in
        match ne with
        | O => 0%Z
        | S _ => if neg then (- Z.of_N ev)%Z else Z.of_N ev
        end
      else 0%Z
  | EmptyString => 0%Z
  end.

Definition parseFloat (s : string) : option Q :=
  let '(neg, s0) := read_sign (skip_ws s) in
  let '(ip, ni, s1) := digits s0 0%N 0%nat in
  let '(all, nf, s2) :=
    match s1 with
    | String "." r => digits r ip 0%nat
    | _ => (ip, 0%nat, s1)
    end in
  match (ni + nf)%nat with
  | O => None
  | S _ =>
      let e := read_exponent s2 in
      let m := (inject_Z (Z.of_N all) * Qpower 10 (e - Z.of_nat nf)%Z)%Q in
      Some (if neg then (- m)%Q else m)
  end.

(** [parseFloat(x.toFixed(d))]: [toFixed] picks the integer [n] with
    [n / 10^d] closest to the magnitude of [x], the larger one on a tie, and
    prints the sign separately; from [10^21] on it prints the number itself. *)
Definition toFixed (x : Q) (d : nat) : Q :=
  if Qle_bool (Qpower 10 21) (Qabs x) then x
  else
    let scale := Qpower 10 (Z.of_nat d) in
    let n := (inject_Z (Qfloor (Qabs x * scale + (1 # 2))) / scale)%Q in
    if Qle_bool 0 x then n else (- n)%Q.

(** The text consists of decimal digits only. *)
Fixpoint all_digits (s : string) : bool :=
  match s with
  | String c r => match digit_val c with Some _ => all_digits r | None => false end
  | EmptyString => true
  end.

(** *** Strings *)

(** [s.includes(sub)] *)
Fixpoint includes (s sub : string) : bool :=
  if String.prefix sub s then true
  else match s with
       | String _ r => includes r sub
       | EmptyString => false
       end.

(** [s.replace(/re/g, by)] for a character-class pattern: every character
    that matches is replaced. *)
Fixpoint replace_class (matches : ascii -> bool) (by_ : ascii) (s : string) : string :=
  match s with
  | String c r => String (if matches c then by_ else c) (replace_class matches by_ r)
  | EmptyString => EmptyString
  end.

Fixpoint all_ws (s : string) : bool :=
  match s with
  | String c r => is_ws c && all_ws r
  | EmptyString => true
  end.

(** [s.trim().length > 0]: some character is not white space. *)
Definition trim_nonempty (s : string) : bool := negb (all_ws s).

(** [arr.join(sep)] *)
Fixpoint join (sep : string) (parts : list string) : string :=
  match parts with
  | [] => EmptyString
  | [p] => p
  | p :: rest => p +:+ sep +:+ join sep rest
  end.

(** [s.split('.').pop()]: the text after the last dot. *)
Fixpoint after_last_dot (s acc : string) : string :=
  match s with
  | String c r => if Ascii.eqb c "."%char then after_last_dot r r else after_last_dot r acc
  | EmptyString => acc
  end.

(** [sub] occurs in [s]: the meaning of [includes]. *)
Definition occurs_in (sub s : string) : Prop :=
  exists before after, s = before +:+ sub +:+ after.

(** *** JSON

    The values that the log objects of the sources hold, objects as ordered
    property lists (property order is insertion order), and
    [JSON.stringify]. *)
Inductive JValue :=
| JStr (s : string)
| JNum (n : Z)
| JNull.

Abbreviation JObject := (list (string * JValue)).

Fixpoint obj_get (o : JObject) (k : string) : option JValue :=
  match o with
  | [] => None
  | (k', v) :: rest => if String.eqb k' k then Some v else obj_get rest k
  end.

(** Assignment of one property: an existing key keeps its position. *)
Fixpoint obj_set (o : JObject) (k : string) (v : JValue) : JObject :=
  match o with
  | [] => [(k, v)]
  | (k', v') :: rest =>
      if String.eqb k' k then (k', v) :: rest else (k', v') :: obj_set rest k v
  end.

(** [{ ...o, ...src }] *)
Definition obj_spread (o src : JObject) : JObject :=
  foldl (fun acc kv => obj_set acc (fst kv) (snd kv)) o src.

Definition dquote : ascii := "034"%char.
Definition backslash : ascii := "092"%char.

Definition hex_digit (n : N) : ascii :=
  ascii_of_N (if (n <? 10)%N then 48 + n else 87 + n)%N.

(** [QuoteJSONString] on one character (bytes from 128 on are parts of
    UTF-8 sequences and are copied). *)
Definition escape_char (c : ascii) : string :=
  let n := N_of_ascii c in
  if Ascii.eqb c dquote then String backslash (String dquote EmptyString)
  else if Ascii.eqb c backslash then String backslash (String backslash EmptyString)
  else if (n =? 8)%N then String backslash "b"
  else if (n =? 12)%N then String backslash "f"
  else if (n =? 10)%N then String backslash "n"
  else if (n =? 13)%N then String backslash "r"
  else if (n =? 9)%N then String backslash "t"
  else if (n <? 32)%N then
    String backslash ("u00" +:+ String (hex_digit (n / 16)) (String (hex_digit (n mod 16)) EmptyString))
  else String c EmptyString.

Fixpoint escape (s : string) : string :=
  match s with
  | String c r => escape_char c +:+ escape r
  | EmptyString => EmptyString
  end.

Definition quote (s : string) : string :=
  String dquote (escape s +:+ String dquote EmptyString).

Definition stringify_value (v : JValue) : string :=
  match v with
  | JStr s => quote s
  | JNum n => pretty n
  | JNull => "null"
  end.

Definition stringify (o : JObject) : string :=
  "{" +:+ join "," ((fun kv => quote (fst kv) +:+ ":" +:+ stringify_value (snd kv)) <$> o) +:+ "}".

(** *** Statements that complete abruptly

    A computation over a state [S] ends normally with a value, by [throw], or by
    the [continue] of the enclosing loop. *)
Inductive Completion (A : Type) :=
| Normal (a : A)
| Throw (message : string)
| Continue.
Arguments Normal {A} a.
Arguments Throw {A} message.
Arguments Continue {A}.

Definition Step (S A : Type) : Type := S -> Completion A * S.

Definition ret {S A} (a : A) : Step S A := fun st => (Normal a, st).

Definition bind {S A B} (m : Step S A) (k : A -> Step S B) : Step S B :=
  fun st =>
    match m st with
    | (Normal a, st') => k a st'
    | (Throw msg, st') => (Throw msg, st')
    | (Continue, st') => (Continue, st')
    end.

#[global] Instance step_ret {S} : MRet (Step S) := fun A a => ret a.
#[global] Instance step_bind {S} : MBind (Step S) := fun A B k m => bind m k.

Definition throw {S A} (message : string) : Step S A := fun st => (Throw message, st).

Definition continue {S A} : Step S A := fun st => (Continue, st).

Definition get {S} : Step S S := fun st => (Normal st, st).

Definition modify {S} (f : S -> S) : Step S unit := fun st => (Normal tt, f st).

(** [try { body } catch (error) { handler(error.message) }] *)
Definition try_catch {S A} (body : Step S A) (handler : string -> Step S A) : Step S A :=
  fun st =>
    match body st with
    | (Throw msg, st') => handler msg st'
    | done => done
    end.

(** [for (const x of items) { body(x) }]: a [continue] ends the iteration, a
    [throw] that reaches the loop ends the loop. *)
Fixpoint for_of {S A} (items : list A) (body : A -> Step S unit) : Step S unit :=
  match items with
  | [] => ret tt
  | x :: rest =>
      fun st =>
        match body x st with
        | (Throw msg, st') => (Throw msg, st')
        | (_, st') => for_of rest body st'
        end
  end.

(** An awaited promise: rejected with a message, or fulfilled. *)
Definition await {S A} (outcome : string + A) : Step S A :=
  match outcome with
  | inl msg => throw msg
  | inr a => ret a
  end.

End JS.

(** ** Configuration objects (config/filters.json) *)

Module SizeRange.
Record t := { label : string; min : Q; max : Q; maxPrice : option Z }.
End SizeRange.

Module PriceRange.
Record t := { label : string; min : Z; max : option Z }.
End PriceRange.

Record Config := {
  county : string;
  state : string;
  sizeRanges : list SizeRange.t;
  priceRanges : list PriceRange.t
}.

(** ** utils.js

    The log file [downloads.log] is the list of the objects appended to it; its
    text is one [JSON.stringify] line per object.  An empty list is also the
    state in which the file does not exist yet. *)

Module Utils.

Definition safe_char (c : ascii) : bool :=
  let n := N_of_ascii c in
  ((97 <=? n) && (n <=? 122) || (65 <=? n) && (n <=? 90) || (48 <=? n) && (n <=? 57)
   || (n =? 46) || (n =? 45))%N.

(** [label.replace(/[^a-zA-Z0-9.-]/g, '_')] *)
Definition safe_label (label : string) : string :=
  JS.replace_class (fun c => negb (safe_char c)) "_"%char label.

(** [createSafeFilename(zip, sizeRange, priceRange, timestamp = null)];
    [now] is the value of [Date.now()]. *)
Definition createSafeFilename (zip : string) (sizeRange : SizeRange.t)
    (priceRange : PriceRange.t) (timestamp : option string) (now : N) : string :=
  let ts := match timestamp with
            | Some t => if JS.truthy t then t else pretty now
            | None => pretty now
            end in
  zip +:+ "_" +:+ safe_label (SizeRange.label sizeRange) +:+ "_"
      +:+ safe_label (PriceRange.label priceRange) +:+ "_" +:+ ts +:+ ".csv".

Definition newline : string := String "010"%char EmptyString.

(** The text of the log file. *)
Fixpoint logContent (ledger : list JS.JObject) : string :=
  match ledger with
  | [] => EmptyString
  | entry :: rest => JS.stringify entry +:+ newline +:+ logContent rest
  end.

(** [logDownload(logDir, downloadInfo)]; [isoNow] is
    [new Date().toISOString()]. *)
Definition logDownload (isoNow : string) (downloadInfo : JS.JObject)
    (ledger : list JS.JObject) : list JS.JObject :=
  ledger ++ [JS.obj_spread [("timestamp"%string, JS.JStr isoNow)] downloadInfo].

(** [isAlreadyDownloaded(logDir, zip, sizeRange, priceRange)] *)
Definition isAlreadyDownloaded (ledger : list JS.JObject) (zip : string)
    (sizeRange : SizeRange.t) (priceRange : PriceRange.t) : bool :=
  match ledger with
  | [] => false
  | _ =>
      let searchKey := zip +:+ "_" +:+ SizeRange.label sizeRange +:+ "_"
                           +:+ PriceRange.label priceRange in
      JS.includes (logContent ledger) searchKey
  end.

(** [splitPriceRange(priceRange, splits = 2)] for a whole number of splits:
    an open-ended range (upper bound [null] or 0) is returned as it is. *)
Definition splitPriceRange (priceRange : PriceRange.t) (splits : nat)
    : list PriceRange.t :=
  match PriceRange.max priceRange with
  | None => [priceRange]
  | Some upper =>
      if (upper =? 0)%Z then [priceRange]
      else
        let lower := inject_Z (PriceRange.min priceRange) in
        let rangeSize := ((inject_Z upper - lower) / inject_Z (Z.of_nat splits))%Q in
        (fun i : nat =>
           let min := JS.floor (lower + rangeSize * inject_Z (Z.of_nat i))%Q in
           let max :=
             if (i =? splits - 1)%nat then upper
             else JS.floor (lower + rangeSize * (inject_Z (Z.of_nat i) + 1) - 1)%Q in
           {| PriceRange.label := pretty min +:+ "-" +:+ pretty max;
              PriceRange.min := min;
              PriceRange.max := Some max |})
          <$> seq 0 splits
  end.

(** [text.match(/(\d+)/)] followed by [parseInt]: the number written by the
    first run of digits, if there is one. *)
Fixpoint first_number (text : string) : option N :=
  match text with
  | String c rest =>
      match JS.digit_val c with
      | Some _ => Some (fst (fst (JS.digits text 0%N 0%nat)))
      | None => first_number rest
      end
  | EmptyString => None
  end.

(** [checkResultCount(page, limit = 300)]; [countText] is the text of the
    search-count element, [None] when waiting for it or reading it throws. *)
Definition checkResultCount (countText : option string) (limit : N) : N * bool :=
  match countText with
  | Some text =>
      let count := default 0%N (first_number text) in
      (count, (limit <? count)%N)
  | None => (0%N, false)
  end.

End Utils.

(** ** downloadRedfinData.js *)

Module DownloadRedfinData.

(** [getPriceRangesForSize(sizeRange, priceRanges)]: a [maxPrice] that is
    absent or zero is falsy. *)
Definition getPriceRangesForSize (sizeRange : SizeRange.t)
    (priceRanges : list PriceRange.t) : list PriceRange.t :=
  match SizeRange.maxPrice sizeRange with
  | Some cap =>
      if (cap =? 0)%Z then priceRanges
      else List.filter
             (fun price =>
                match PriceRange.max price with
                | None => true
                | Some m => (m <=? cap)%Z
                end)
             priceRanges
  | None => priceRanges
  end.

(** [buildRedfinUrl({ county, state, sizeRange, priceRange, propertyType,
    soldDateRange })] *)
Definition buildRedfinUrl (county state : string) (sizeRange : SizeRange.t)
    (priceRange : PriceRange.t) (propertyType soldDateRange : string) : string :=
  let countyId := "482"%string in
  let countyName := "Okaloosa-County"%string in
  let baseUrl := "https://www.redfin.com/county/" +:+ countyId +:+ "/" +:+ state
                   +:+ "/" +:+ countyName +:+ "/filter" in
  let f1 := if String.eqb propertyType "Land" then ["property-type=land"%string] else [] in
  let f2 := if String.eqb soldDateRange "12mo" then ["include=sold-1yr"%string] else [] in
  let minSqft := JS.floor (SizeRange.min sizeRange * 43560)%Q in
  let maxSqft := if Qeq_bool (SizeRange.max sizeRange) 1000 then None
                 else Some (JS.floor (SizeRange.max sizeRange * 43560)%Q) in
  let f3 := match maxSqft with
            | Some m =>
                if (m =? 0)%Z then "lot-size=" +:+ pretty minSqft +:+ "+-sqft"
                else "lot-size=" +:+ pretty minSqft +:+ "-" +:+ pretty m +:+ "-sqft"
            | None => "lot-size=" +:+ pretty minSqft +:+ "+-sqft"
            end in
  let maxPrice := match PriceRange.max priceRange with
                  | Some m => if (m =? 0)%Z then EmptyString else pretty m
                  | None => EmptyString
                  end in
  let f4 := "price=" +:+ pretty (PriceRange.min priceRange) +:+ "-" +:+ maxPrice in
  baseUrl +:+ "/" +:+ JS.join "," (f1 ++ f2 ++ [f3; f4]).

(** What the browser answers while one query is processed.  A rejected
    promise or a thrown error carries its message. *)
Record Page := {
  goto : nat -> option string;
  searchCount : N;
  downloadButton : bool;
  click : option string;
  loginModal : bool;
  handleRedfinLogin : string + bool;
  downloadButtonAfterLogin : bool;
  clickAfterLogin : option string;
  downloadAfterLogin : string + option (string * string);
  download : string + option (string * string);
  renameSync : option string
}.

(** The surroundings of a run: the clock (indexed by the number of earlier
    readings), the target directory, and the browser's behaviour per query. *)
Record World := {
  isoTime : nat -> string;
  nowMs : nat -> N;
  rawDataDir : string;
  page : SizeRange.t -> PriceRange.t -> Page
}.

(** The mutable state of a run: the log file, the files on disk, the clock
    readings made, the three counters, and the pauses taken so far (the
    arguments of [page.waitForTimeout], in milliseconds). *)
Record Run := {
  ledger : list JS.JObject;
  files : gmap string string;
  ticks : nat;
  totalDownloads : nat;
  successfulDownloads : nat;
  skippedDownloads : nat;
  waits : list N
}.

Definition set_ledger (l : list JS.JObject) (st : Run) : Run :=
  {| ledger := l; files := files st; ticks := ticks st;
     totalDownloads := totalDownloads st; successfulDownloads := successfulDownloads st;
     skippedDownloads := skippedDownloads st; waits := waits st |}.

Definition set_files (f : gmap string string) (st : Run) : Run :=
  {| ledger := ledger st; files := f; ticks := ticks st;
     totalDownloads := totalDownloads st; successfulDownloads := successfulDownloads st;
     skippedDownloads := skippedDownloads st; waits := waits st |}.

Definition tick (st : Run) : Run :=
  {| ledger := ledger st; files := files st; ticks := S (ticks st);
     totalDownloads := totalDownloads st; successfulDownloads := successfulDownloads st;
     skippedDownloads := skippedDownloads st; waits := waits st |}.

Definition incr_total (st : Run) : Run :=
  {| ledger := ledger st; files := files st; ticks := ticks st;
     totalDownloads := S (totalDownloads st); successfulDownloads := successfulDownloads st;
     skippedDownloads := skippedDownloads st; waits := waits st |}.

Definition incr_successful (st : Run) : Run :=
  {| ledger := ledger st; files := files st; ticks := ticks st;
     totalDownloads := totalDownloads st; successfulDownloads := S (successfulDownloads st);
     skippedDownloads := skippedDownloads st; waits := waits st |}.

Definition incr_skipped (st : Run) : Run :=
  {| ledger := ledger st; files := files st; ticks := ticks st;
     totalDownloads := totalDownloads st; successfulDownloads := successfulDownloads st;
     skippedDownloads := S (skippedDownloads st); waits := waits st |}.

Definition add_wait (ms : N) (st : Run) : Run :=
  {| ledger := ledger st; files := files st; ticks := ticks st;
     totalDownloads := totalDownloads st; successfulDownloads := successfulDownloads st;
     skippedDownloads := skippedDownloads st; waits := waits st ++ [ms] |}.

(** [await page.waitForTimeout(ms)] *)
Definition waitForTimeout (ms : N) : JS.Step Run unit := JS.modify (add_wait ms).

(** [logDownload(logDir, downloadInfo)] on the state of the run. *)
Definition logDownload (w : World) (downloadInfo : JS.JObject) : JS.Step Run unit :=
  JS.modify (fun st =>
    tick (set_ledger (Utils.logDownload (isoTime w (ticks st)) downloadInfo (ledger st)) st)).

(** [createSafeFilename(county, sizeRange, priceRange)] with the clock read. *)
Definition createSafeFilename (w : World) (county : string) (sizeRange : SizeRange.t)
    (priceRange : PriceRange.t) : JS.Step Run string :=
  st ← JS.get;
  JS.modify tick;;
  mret (Utils.createSafeFilename county sizeRange priceRange None (nowMs w (ticks st))).

(** [fs.renameSync(downloadPath, targetPath)] *)
Definition rename (p : Page) (downloadPath content targetPath : string)
    : JS.Step Run unit :=
  match renameSync p with
  | Some msg => JS.throw msg
  | None => JS.modify (fun st => set_files (<[targetPath := content]> (delete downloadPath (files st))) st)
  end.

(** [await element.click()] *)
Definition clicked (outcome : option string) : JS.Step Run unit :=
  match outcome with
  | Some msg => JS.throw msg
  | None => mret tt
  end.

Definition maxAttempts : nat := 3.

(** The navigation loop [while (!navigationSuccess && attempts < maxAttempts)];
    [remaining] is [maxAttempts - attempts]. *)
Fixpoint navigate (p : Page) (remaining attempts : nat) : JS.Step Run unit :=
  match remaining with
  | O => mret tt
  | S remaining' =>
      let attempts := S attempts in
      match goto p attempts with
      | None => waitForTimeout 2000
      | Some msg =>
          if (attempts <? maxAttempts)%nat
          then waitForTimeout 5000;; navigate p remaining' attempts
          else JS.throw ("Failed to navigate after " +:+ pretty maxAttempts
                           +:+ " attempts: " +:+ msg)
      end
  end.

(** The log object of a completed download. *)
Definition success_info (county : string) (sizeRange : SizeRange.t)
    (priceRange : PriceRange.t) (resultCount : N) (filename searchUrl : string)
    : JS.JObject :=
  [ ("county", JS.JStr county);
    ("sizeRange", JS.JStr (SizeRange.label sizeRange));
    ("priceRange", JS.JStr (PriceRange.label priceRange));
    ("resultCount", JS.JNum (Z.of_N resultCount));
    ("status", JS.JStr "success");
    ("filename", JS.JStr filename);
    ("url", JS.JStr searchUrl) ]%string.

(** The log object of a query without results or without download button. *)
Definition skipped_info (county : string) (sizeRange : SizeRange.t)
    (priceRange : PriceRange.t) (resultCount : N) (status searchUrl : string)
    : JS.JObject :=
  [ ("county", JS.JStr county);
    ("sizeRange", JS.JStr (SizeRange.label sizeRange));
    ("priceRange", JS.JStr (PriceRange.label priceRange));
    ("resultCount", JS.JNum (Z.of_N resultCount));
    ("status", JS.JStr status);
    ("url", JS.JStr searchUrl) ]%string.

(** The log object written by the [catch] block. *)
Definition error_info (county : string) (sizeRange : SizeRange.t)
    (priceRange : PriceRange.t) (message searchUrl : string) : JS.JObject :=
  [ ("county", JS.JStr county);
    ("sizeRange", JS.JStr (SizeRange.label sizeRange));
    ("priceRange", JS.JStr (PriceRange.label priceRange));
    ("status", JS.JStr "error");
    ("error", JS.JStr message);
    ("url", JS.JStr searchUrl) ]%string.

(** Moving the downloaded file and logging the success. *)
Definition save_download (w : World) (p : Page) (county : string)
    (sizeRange : SizeRange.t) (priceRange : PriceRange.t) (searchUrl : string)
    (downloadPath content : string) : JS.Step Run unit :=
  filename ← createSafeFilename w county sizeRange priceRange;
  rename p downloadPath content (rawDataDir w +:+ "/" +:+ filename);;
  logDownload w (success_info county sizeRange priceRange (searchCount p) filename searchUrl);;
  JS.modify incr_successful.

(** The [if (loginRequired)] block. *)
Definition login_branch (w : World) (p : Page) (county : string)
    (sizeRange : SizeRange.t) (priceRange : PriceRange.t) (searchUrl : string)
    : JS.Step Run unit :=
  loginSuccess ← JS.await (handleRedfinLogin p);
  if loginSuccess : bool then
    waitForTimeout 3000;;
    if downloadButtonAfterLogin p then
      clicked (clickAfterLogin p);;
      waitForTimeout 2000;;
      downloadPath ← JS.await (downloadAfterLogin p);
      match downloadPath with
      | Some (path, content) =>
          save_download w p county sizeRange priceRange searchUrl path content;;
          JS.modify incr_total;;
          waitForTimeout 5000;;
          JS.continue
      | None => JS.throw "Download failed after login - no file path"
      end
    else JS.throw "Download button not found after login"
  else JS.throw "Login failed".

(** The body of the [try] block for one query. *)
Definition try_block (w : World) (county : string) (sizeRange : SizeRange.t)
    (priceRange : PriceRange.t) (searchUrl : string) : JS.Step Run unit :=
  let p := page w sizeRange priceRange in
  st ← JS.get;
  if Utils.isAlreadyDownloaded (ledger st) county sizeRange priceRange then
    JS.modify incr_skipped;; JS.continue
  else
    navigate p maxAttempts 0;;
    if (searchCount p =? 0)%N then
      logDownload w (skipped_info county sizeRange priceRange 0 "no_results" searchUrl);;
      JS.continue
    else if negb (downloadButton p) then
      logDownload w (skipped_info county sizeRange priceRange (searchCount p)
                       "no_download_button" searchUrl);;
      JS.continue
    else
      clicked (click p);;
      waitForTimeout 3000;;
      (if loginModal p
       then login_branch w p county sizeRange priceRange searchUrl
       else mret tt);;
      downloadPath ← JS.await (download p);
      match downloadPath with
      | Some (path, content) =>
          save_download w p county sizeRange priceRange searchUrl path content
      | None => JS.throw "Download failed - no file path"
      end;;
      JS.modify incr_total;;
      waitForTimeout 15000.

(** The [catch (error)] block. *)
Definition catch_block (w : World) (county : string) (sizeRange : SizeRange.t)
    (priceRange : PriceRange.t) (searchUrl : string) (message : string)
    : JS.Step Run unit :=
  logDownload w (error_info county sizeRange priceRange message searchUrl);;
  JS.modify incr_total;;
  waitForTimeout 10000;;
  JS.continue.

(** One iteration of the inner loop. *)
Definition process_query (w : World) (config : Config) (sizeRange : SizeRange.t)
    (priceRange : PriceRange.t) : JS.Step Run unit :=
  let searchUrl := buildRedfinUrl (county config) (state config) sizeRange priceRange
                     "Land" "12mo" in
  JS.try_catch
    (try_block w (county config) sizeRange priceRange searchUrl)
    (catch_block w (county config) sizeRange priceRange searchUrl).

(** The two nested loops of [downloadRedfinData(config)]. *)
Definition downloadRedfinData (w : World) (config : Config) : JS.Step Run unit :=
  JS.for_of (sizeRanges config) (fun sizeRange =>
    JS.for_of (getPriceRangesForSize sizeRange (priceRanges config)) (fun priceRange =>
      process_query w config sizeRange priceRange)).

(** The queries of a run in the order of the loops. *)
Definition queries (config : Config) : list (SizeRange.t * PriceRange.t) :=
  sizeRange ← sizeRanges config;
  priceRange ← getPriceRangesForSize sizeRange (priceRanges config);
  [(sizeRange, priceRange)].

(** The loop body run over a list of queries. *)
Definition run_queries (w : World) (config : Config)
    (qs : list (SizeRange.t * PriceRange.t)) : JS.Step Run unit :=
  JS.for_of qs (fun q => process_query w config (fst q) (snd q)).

(** The search URL of a query. *)
Definition searchUrl (config : Config) (sizeRange : SizeRange.t)
    (priceRange : PriceRange.t) : string :=
  buildRedfinUrl (county config) (state config) sizeRange priceRange "Land" "12mo".

(** The pause that ends the processing of a query, if any. *)
Definition final_wait (st : Run) : option N := last (waits st).

(** A fresh run on an existing log file. *)
Definition start (previous : list JS.JObject) : Run :=
  {| ledger := previous; files := ∅; ticks := 0; totalDownloads := 0;
     successfulDownloads := 0; skippedDownloads := 0; waits := [] |}.

(** The reading of the failure policy with a status name left open: when the
    [try] block of a query throws, the iteration appends one log object that
    carries this status and the message of the error. *)
Definition failure_logged_as (status : string) (w : World) (config : Config)
    (sizeRange : SizeRange.t) (priceRange : PriceRange.t) (st : Run) : Prop :=
  forall message thrown,
    try_block w (county config) sizeRange priceRange
      (searchUrl config sizeRange priceRange) st = (JS.Throw message, thrown) ->
    exists entry,
      ledger (snd (process_query w config sizeRange priceRange st)) = ledger st ++ [entry] /\
      JS.obj_get entry "status" = Some (JS.JStr status) /\
      JS.obj_get entry "error" = Some (JS.JStr message).




(** A page on which the download goes through at the first attempt: it loads,
    shows results and a download button, no login prompt comes up, and the
    file arrives and can be moved. *)
Definition downloads_at_once (p : Page) : Prop :=
  goto p 1 = None /\ searchCount p <> 0%N /\ downloadButton p = true /\
  click p = None /\ loginModal p = false /\
  (exists file, download p = inr (Some file)) /\ renameSync p = None.

(** [findDownloadButton(page)].  [isVisible selector] is what
    [page.locator(selector).first().isVisible(...)] answers, a boolean or a
    thrown error; the result is the selector of the element returned, [None]
    for [null]. *)
Definition quoted (s : string) : string :=
  String JS.dquote (s +:+ String JS.dquote EmptyString).

Definition downloadSelectors : list string :=
  [ "button[data-rf-test-id=" +:+ quoted "download-button" +:+ "]";
    "button:has-text(" +:+ quoted "Download" +:+ ")";
    "a:has-text(" +:+ quoted "Download" +:+ ")";
    "[data-rf-test-id=" +:+ quoted "download-all" +:+ "]";
    "button:has-text(" +:+ quoted "Export" +:+ ")";
    ".download-button";
    "[aria-label*=" +:+ quoted "download" +:+ " i]";
    "[title*=" +:+ quoted "download" +:+ " i]" ]%string.

Definition downloadText : string := "text=/download/i".

(** [try { if (await element.isVisible(...)) ... } catch (error) { }]: an
    error counts as not visible. *)
Definition seen (isVisible : string -> string + bool) (selector : string) : bool :=
  match isVisible selector with
  | inr true => true
  | _ => false
  end.

Fixpoint first_seen (isVisible : string -> string + bool) (selectors : list string)
    : option string :=
  match selectors with
  | [] => None
  | selector :: rest =>
      if seen isVisible selector then Some selector else first_seen isVisible rest
  end.

Definition findDownloadButton (isVisible : string -> string + bool) : option string :=
  match first_seen isVisible downloadSelectors with
  | Some selector => Some selector
  | None => if seen isVisible downloadText then Some downloadText else None
  end.


End DownloadRedfinData.

(** ** simpleDownload.js

    The single-query script from the click on the download button on: the
    check of the intercepted response, the login detour, the wait for the
    browser's download event, and the replay of the download URLs over HTTP. *)

Module SimpleDownload.

(** An answer of the server to [protocol.get]. *)
Inductive HttpResponse :=
| Response (statusCode : N) (statusMessage body : string)
| RequestError (message : string).

(** An item of [extractDownloadUrls(page)]. *)
Record DownloadInfo := { url : string; filename : string }.

(** What the browser and the network answer during the capture. *)
Record Session := {
  isoTime : nat -> string;
  rawDataDir : string;
  interceptedCsvData : option string;
  csvUrl : option string;
  loginRequired : bool;
  handleRedfinLogin : string + bool;
  downloadButtonAfterLogin : bool;
  clickAfterLogin : option string;
  interceptedAfterLogin : option string;
  download : option (string + option (string * string));
  extractDownloadUrls : list DownloadInfo;
  http : string -> list HttpResponse;
  browserGoto : string -> option string
}.

Record Capture := {
  ledger : list JS.JObject;
  files : gmap string string;
  ticks : nat;
  downloadSuccess : bool
}.

Definition set_ledger (l : list JS.JObject) (st : Capture) : Capture :=
  {| ledger := l; files := files st; ticks := ticks st;
     downloadSuccess := downloadSuccess st |}.

Definition set_files (f : gmap string string) (st : Capture) : Capture :=
  {| ledger := ledger st; files := f; ticks := ticks st;
     downloadSuccess := downloadSuccess st |}.

Definition tick (st : Capture) : Capture :=
  {| ledger := ledger st; files := files st; ticks := S (ticks st);
     downloadSuccess := downloadSuccess st |}.

Definition set_success (st : Capture) : Capture :=
  {| ledger := ledger st; files := files st; ticks := ticks st;
     downloadSuccess := true |}.

(** [ToBoolean] of the intercepted text: [null] and the empty text are falsy. *)
Definition truthy_data (data : option string) : bool :=
  match data with
  | Some s => JS.truthy s
  | None => false
  end.

Definition json_of (s : option string) : JS.JValue :=
  match s with
  | Some s => JS.JStr s
  | None => JS.JNull
  end.

(** [new Date().toISOString().replace(/[:.]/g, '-')] *)
Definition timestamp (s : Session) : JS.Step Capture string :=
  st ← JS.get;
  JS.modify tick;;
  mret (JS.replace_class (fun c => Ascii.eqb c ":"%char || Ascii.eqb c "."%char) "-"%char
          (isoTime s (ticks st))).

Definition logDownload (s : Session) (downloadInfo : JS.JObject) : JS.Step Capture unit :=
  JS.modify (fun st =>
    tick (set_ledger (Utils.logDownload (isoTime s (ticks st)) downloadInfo (ledger st)) st)).

(** [fs.writeFileSync(targetPath, data)] *)
Definition writeFileSync (targetPath data : string) : JS.Step Capture unit :=
  JS.modify (fun st => set_files (<[targetPath := data]> (files st)) st).

(** [downloadFileFromUrl(url, targetPath, cookies)] against the successive
    answers of the server: a 200 answer is piped to the target file and the
    promise resolves, a 301 or 302 answer is followed, any other answer
    rejects; when no answer comes the request timer rejects. *)
Fixpoint downloadFileFromUrl (responses : list HttpResponse) (targetPath : string)
    : JS.Step Capture string :=
  match responses with
  | [] => JS.throw "Download timeout"
  | Response statusCode statusMessage body :: rest =>
      if (statusCode =? 200)%N then
        writeFileSync targetPath body;; mret targetPath
      else if ((statusCode =? 302) || (statusCode =? 301))%N then
        downloadFileFromUrl rest targetPath
      else JS.throw ("HTTP " +:+ pretty statusCode +:+ ": " +:+ statusMessage)
  | RequestError message :: _ => JS.throw message
  end.

(** Saving an intercepted response (both places that do so). *)
Definition save_intercepted (s : Session) (data : string) : JS.Step Capture unit :=
  ts ← timestamp s;
  let filename := "okaloosa-land-sold-1yr-intercepted-" +:+ ts +:+ ".csv" in
  writeFileSync (rawDataDir s +:+ "/" +:+ filename) data;;
  logDownload s
    [ ("county", JS.JStr "Okaloosa");
      ("filters", JS.JStr "Land, Sold 1 year");
      ("status", JS.JStr "success");
      ("filename", JS.JStr filename);
      ("timestamp", JS.JStr ts);
      ("method", JS.JStr "network_interception");
      ("originalUrl", json_of (csvUrl s)) ]%string;;
  JS.modify set_success.

(** Step 6, the login detour; an error of the second click is swallowed. *)
Definition login_detour (s : Session) : JS.Step Capture unit :=
  if loginRequired s then
    loginSuccess ← JS.await (handleRedfinLogin s);
    if (loginSuccess : bool) && downloadButtonAfterLogin s then
      JS.try_catch
        (match clickAfterLogin s with
         | Some msg => JS.throw msg
         | None =>
             match interceptedAfterLogin s with
             | Some data => if JS.truthy data then save_intercepted s data else mret tt
             | None => mret tt
             end
         end)
        (fun _ => mret tt)
    else mret tt
  else mret tt.

(** The wait for the browser's own download event. *)
Definition traditional_download (s : Session) : JS.Step Capture unit :=
  JS.try_catch
    (match download s with
     | Some event =>
         downloadPath ← JS.await event;
         match downloadPath with
         | Some (path, content) =>
             ts ← timestamp s;
             let filename := "okaloosa-land-sold-1yr-" +:+ ts +:+ ".csv" in
             JS.modify (fun st =>
               set_files (<[rawDataDir s +:+ "/" +:+ filename := content]>
                            (delete path (files st))) st);;
             logDownload s
               [ ("county", JS.JStr "Okaloosa");
                 ("filters", JS.JStr "Land, Sold 1 year");
                 ("status", JS.JStr "success");
                 ("filename", JS.JStr filename);
                 ("timestamp", JS.JStr ts);
                 ("method", JS.JStr "traditional") ]%string;;
             JS.modify set_success
         | None => mret tt
         end
     | None => mret tt
     end)
    (fun _ => mret tt).

(** The test that skips page URLs in the replay loop. *)
Definition non_data_url (u : string) : bool :=
  JS.includes u "redfin.com" && negb (JS.includes u "/api/gis-csv")
  && negb (JS.includes u ".csv") && negb (String.prefix "blob:" u).

Definition fileExtension (info : DownloadInfo) : string :=
  if JS.includes (url info) "/api/gis-csv" || JS.includes (url info) ".csv" then "csv"
  else if JS.includes (filename info) "." then JS.after_last_dot (filename info) (filename info)
  else "csv".

(** The [catch (downloadError)] block of the replay loop.  Its browser
    fallback navigates to the URL; the names [targetPath], [filename] and
    [timestamp] that the fallback would go on to use are block-scoped to the
    [try] and not visible here, so the fallback ends in its own [catch] without
    writing or logging, whether the navigation throws or not. *)
Definition replay_failed (s : Session) (info : DownloadInfo) (message : string)
    : JS.Step Capture unit :=
  (if JS.includes message "403" && JS.includes (url info) "/api/gis-csv"
   then JS.try_catch
          (match browserGoto s (url info) with
           | Some msg => JS.throw msg
           | None => mret tt
           end)
          (fun _ => mret tt)
   else mret tt);;
  st ← JS.get;
  if downloadSuccess st then mret tt
  else
    ts ← timestamp s;
    logDownload s
      [ ("county", JS.JStr "Okaloosa");
        ("filters", JS.JStr "Land, Sold 1 year");
        ("status", JS.JStr "failed");
        ("error", JS.JStr message);
        ("timestamp", JS.JStr ts);
        ("method", JS.JStr "direct_url");
        ("originalUrl", JS.JStr (url info)) ]%string.

(** One iteration of the replay loop; [i] is the zero-based index. *)
Definition replay_url (s : Session) (i : nat) (info : DownloadInfo)
    : JS.Step Capture unit :=
  if non_data_url (url info) then JS.continue
  else
    JS.try_catch
      (ts ← timestamp s;
       let filename := "okaloosa-land-sold-1yr-" +:+ ts +:+ "-" +:+ pretty (S i) +:+ "."
                         +:+ fileExtension info in
       downloadFileFromUrl (http s (url info)) (rawDataDir s +:+ "/" +:+ filename);;
       logDownload s
         [ ("county", JS.JStr "Okaloosa");
           ("filters", JS.JStr "Land, Sold 1 year");
           ("status", JS.JStr "success");
           ("filename", JS.JStr filename);
           ("timestamp", JS.JStr ts);
           ("method", JS.JStr "direct_url");
           ("originalUrl", JS.JStr (url info)) ]%string;;
       JS.modify set_success)
      (replay_failed s info).

(** The capture after the click on the download button. *)
Definition capture (s : Session) : JS.Step Capture unit :=
  JS.try_catch
    (if truthy_data (interceptedCsvData s) then
       save_intercepted s (default EmptyString (interceptedCsvData s))
     else
       login_detour s;;
       traditional_download s;;
       st ← JS.get;
       if downloadSuccess st then mret tt
       else JS.for_of (imap (fun i info => (i, info)) (extractDownloadUrls s))
                      (fun item => replay_url s (fst item) (snd item)))
    (fun _ => mret tt).

Definition start (previous : list JS.JObject) : Capture :=
  {| ledger := previous; files := ∅; ticks := 0; downloadSuccess := false |}.





End SimpleDownload.

(** ** directDownload.js *)

Module DirectDownload.

(** The [finish] handler of the file stream after a 200 answer: the success is
    logged only when [fs.statSync(targetPath).size] is positive. *)
Definition on_finish (isoNow filename timestamp body : string)
    (ledger : list JS.JObject) : list JS.JObject :=
  let size := String.length body in
  if (0 <? size)%nat then
    Utils.logDownload isoNow
      [ ("county", JS.JStr "Okaloosa");
        ("filters", JS.JStr "Land, Sold 90 days");
        ("status", JS.JStr "success");
        ("filename", JS.JStr filename);
        ("timestamp", JS.JStr timestamp);
        ("fileSize", JS.JNum (Z.of_nat size));
        ("method", JS.JStr "direct-api") ]%string
      ledger
  else ledger.

End DirectDownload.

(** ** processData.js *)

Module ProcessData.

Local Open Scope Q_scope.

(** [categorizeLotSize(acres)] *)
Definition categorizeLotSize (acres : Q) : string :=
  if Qle_bool acres 0.25 then "0-0.25"
  else if Qle_bool acres 0.5 then "0.25-0.5"
  else if Qle_bool acres 1 then "0.5-1"
  else if Qle_bool acres 3 then "1-3"
  else if Qle_bool acres 5 then "3-5"
  else "5+".

(** [calculateMedian(sortedArray)]; the result is [None] when an operand is
    [undefined] (the sum is then [NaN], or the element itself is missing). *)
Definition calculateMedian (sortedArray : list Q) : option Q :=
  let len := Z.of_nat (length sortedArray) in
  let mid := JS.floor (inject_Z len / 2) in
  if negb (len mod 2 =? 0)%Z
  then JS.index sortedArray mid
  else
    a ← JS.index sortedArray (mid - 1)%Z;
    b ← JS.index sortedArray mid;
    Some ((a + b) / 2).

(** [calculatePercentile(sortedArray, percentile)] *)
Definition calculatePercentile (sortedArray : list Q) (percentile : Q) : option Q :=
  let index := (percentile / 100) * (inject_Z (Z.of_nat (length sortedArray)) - 1) in
  let lower := JS.floor index in
  let upper := JS.ceil index in
  if (lower =? upper)%Z
  then JS.index sortedArray lower
  else
    lo ← JS.index sortedArray lower;
    hi ← JS.index sortedArray upper;
    Some (lo + (hi - lo) * (index - inject_Z lower)).

(** A row of a parsed CSV file: column header to cell text
    ([csv-parse] with [columns: true]). *)
Abbreviation Row := (gmap string string).

(** The object returned by [processRecord]. *)
Record Processed := {
  address : string;
  zipCode : string;
  price : Q;
  lotSizeSqft : Q;
  acres : Q;
  pricePerAcre : Q;
  sizeCategory : string;
  saleDate : string;
  originalRecord : Row
}.

(** [processRecord(record)]: [None] is the [null] result. *)
Definition processRecord (record : Row) : option Processed :=
  let price := JS.parseFloat
    (JS.or_else (record !! "PRICE") (JS.or_else (record !! "Sale Price") "0")) in
  let lotSizeSqft := JS.parseFloat
    (JS.or_else (record !! "LOT SIZE") (JS.or_else (record !! "Lot Size") "0")) in
  let zipCode :=
    JS.or_else (record !! "ZIP OR POSTAL CODE") (JS.or_else (record !! "Zip Code") "") in
  let address := JS.or_else (record !! "ADDRESS") (JS.or_else (record !! "Address") "") in
  let saleDate := JS.or_else (record !! "SOLD DATE") (JS.or_else (record !! "Sale Date") "") in
  if negb (JS.truthy_num price) || negb (JS.truthy_num lotSizeSqft) || negb (JS.truthy zipCode)
  then None
  else
    price ← price;
    lotSizeSqft ← lotSizeSqft;
    let acres := lotSizeSqft / 43560 in
    let pricePerAcre := price / acres in
    let sizeCategory := categorizeLotSize acres in
    Some {| address := address;
            zipCode := zipCode;
            price := price;
            lotSizeSqft := lotSizeSqft;
            acres := JS.toFixed acres 4;
            pricePerAcre := JS.toFixed pricePerAcre 2;
            sizeCategory := sizeCategory;
            saleDate := saleDate;
            originalRecord := record |}.

(** [processCsvFile]: the parser hands over the rows of one file in order and
    the non-null results are pushed. *)
Definition processCsvFile (rows : list Row) : list Processed :=
  omap processRecord rows.


(** The statistics object stored for one ZIP code and size category. *)
Record Stats := {
  count : nat;
  median : option Q;
  mean : Q;
  min : option Q;
  max : option Q;
  q1 : option Q;
  q3 : option Q
}.

#[global] Instance Qle_decision : RelDecision Qle :=
  fun x y => decide (Qnum x * QDen y <= Qnum y * QDen x)%Z.

#[global] Instance Qle_transitive : Transitive Qle := Qle_trans.

#[global] Instance Qle_total : Total Qle.
Proof. intros x y. destruct (Qlt_le_dec x y); [left; lra | right; lra]. Qed.

(** First loop of [generateMarketMatrix]: [matrix[zipCode][sizeCategory]]
    collects the prices per acre in input order. *)
Definition push_record (matrix : gmap string (gmap string (list Q))) (record : Processed)
    : gmap string (gmap string (list Q)) :=
  let inner := default ∅ (matrix !! zipCode record) in
  let prices := default [] (inner !! sizeCategory record) in
  <[zipCode record := <[sizeCategory record := prices ++ [pricePerAcre record]]> inner]> matrix.

Definition group_records (records : list Processed) : gmap string (gmap string (list Q)) :=
  foldl push_record ∅ records.

(** Body of the second loop for one collected array. *)
Definition bucket_stats (collected : list Q) : option Stats :=
  let prices := merge_sort Qle collected in
  let count := length prices in
  if (0 <? count)%nat then
    Some {| count := count;
            median := calculateMedian prices;
            mean := JS.toFixed (foldl Qplus 0 prices / inject_Z (Z.of_nat count)) 2;
            min := JS.index prices 0;
            max := JS.index prices (Z.of_nat count - 1);
            q1 := calculatePercentile prices 25;
            q3 := calculatePercentile prices 75 |}
  else None.

(** [generateMarketMatrix(records)] *)
Definition generateMarketMatrix (records : list Processed) : gmap string (gmap string Stats) :=
  (fun inner : gmap string (list Q) => omap bucket_stats inner) <$> group_records records.



(** Linear interpolation of an array at a rational position [t]: the
    expression in the last line of [calculatePercentile]. *)
Definition interpolate (arr : list Q) (t : Q) : option Q :=
  lo ← JS.index arr (JS.floor t);
  hi ← JS.index arr (JS.ceil t);
  Some (lo + (hi - lo) * (t - inject_Z (JS.floor t))).

(** A cell is missing when the row has no such column or the cell is empty. *)
Definition cell_missing (row : Row) (header : string) : Prop :=
  row !! header = None \/ row !! header = Some ""%string.

(** Closeness up to a tolerance, for the rounded figures of a statement. *)
Definition close_to (x v tol : Q) : Prop := Qabs (x - v) <= tol.

(** The row PRICE 100000, LOT SIZE 10000, ZIP 32541 with the ZIP cell under
    the header [ZIP], and the same row under the header that Redfin exports
    and [processRecord] reads. *)
Definition row_zip_header : Row :=
  list_to_map [("PRICE", "100000"); ("LOT SIZE", "10000"); ("ZIP", "32541")]%string.

Definition row_redfin_header : Row :=
  list_to_map [("PRICE", "100000"); ("LOT SIZE", "10000");
               ("ZIP OR POSTAL CODE", "32541")]%string.

(** The ingestion figures 0.2296 acres, 435536.06 dollars per acre and
    category "0-0.25", read to the last printed digit and, for the price per
    acre, generously to a whole dollar. *)
Definition ingested_as_stated (row : Row) : Prop :=
  exists r, processRecord row = Some r /\
            close_to (acres r) 0.2296 0.00005 /\
            close_to (pricePerAcre r) 435536.06 1 /\
            sizeCategory r = "0-0.25"%string.



(** The computed fields of a processed record. *)
Definition figures (r : Processed) : string * Q * Q * Q * Q * string :=
  (zipCode r, price r, lotSizeSqft r, acres r, pricePerAcre r, sizeCategory r).

End ProcessData.

(** ** processData.js on IEEE doubles

    The numeric functions once more, on binary64 values with the operations of
    the machine, to evaluate the figures of the statements as JavaScript
    computes them.  [Math.floor] is computed by the usual shift through
    [2^52]; an array is indexed by counting up to the index. *)

Module Binary64.

Local Open Scope float_scope.

Definition two52 : float := 4503599627370496.

Definition floor (x : float) : float :=
  if abs x <? two52 then
    let r := if 0 <=? x then (x + two52) - two52 else (x - two52) + two52 in
    if x <? r then r - 1 else r
  else x.

Definition ceil (x : float) : float := - floor (- x).

Fixpoint index_from (arr : list float) (i k : float) : option float :=
  match arr with
  | [] => None
  | x :: rest => if i =? k then Some x else index_from rest (i + 1) k
  end.

Definition index (arr : list float) (k : float) : option float := index_from arr 0 k.

Definition length (arr : list float) : float := foldl (fun n _ => n + 1) 0 arr.

Definition categorizeLotSize (acres : float) : string :=
  if acres <=? 0.25 then "0-0.25"
  else if acres <=? 0.5 then "0.25-0.5"
  else if acres <=? 1 then "0.5-1"
  else if acres <=? 3 then "1-3"
  else if acres <=? 5 then "3-5"
  else "5+".

Definition calculatePercentile (sortedArray : list float) (percentile : float)
    : option float :=
  let index_ := (percentile / 100) * (length sortedArray - 1) in
  let lower := floor index_ in
  let upper := ceil index_ in
  if lower =? upper then index sortedArray lower
  else
    lo ← index sortedArray lower;
    hi ← index sortedArray upper;
    Some (lo + (hi - lo) * (index_ - lower)).

End Binary64.

(** ** Concrete configurations and environments

    The six bands and the cap of 190000 dollars are those of the project
    notes; the price ranges, pages and sessions are sample values. *)

Module Scenario.

Import DownloadRedfinData.
Local Open Scope string_scope.

(** The six lot-size bands; the bands below one acre carry the price cap. *)
Definition band_quarter : SizeRange.t :=
  {| SizeRange.label := "0-0.25"; SizeRange.min := 0; SizeRange.max := 0.25;
     SizeRange.maxPrice := Some 190000%Z |}.
Definition band_half : SizeRange.t :=
  {| SizeRange.label := "0.25-0.5"; SizeRange.min := 0.25; SizeRange.max := 0.5;
     SizeRange.maxPrice := Some 190000%Z |}.
Definition band_one : SizeRange.t :=
  {| SizeRange.label := "0.5-1"; SizeRange.min := 0.5; SizeRange.max := 1;
     SizeRange.maxPrice := Some 190000%Z |}.
Definition band_three : SizeRange.t :=
  {| SizeRange.label := "1-3"; SizeRange.min := 1; SizeRange.max := 3;
     SizeRange.maxPrice := None |}.
Definition band_five : SizeRange.t :=
  {| SizeRange.label := "3-5"; SizeRange.min := 3; SizeRange.max := 5;
     SizeRange.maxPrice := None |}.
Definition band_large : SizeRange.t :=
  {| SizeRange.label := "5+"; SizeRange.min := 5; SizeRange.max := 1000;
     SizeRange.maxPrice := None |}.

Definition price_low : PriceRange.t :=
  {| PriceRange.label := "0-50000"; PriceRange.min := 0; PriceRange.max := Some 50000%Z |}.
Definition price_mid : PriceRange.t :=
  {| PriceRange.label := "50000-190000"; PriceRange.min := 50000;
     PriceRange.max := Some 190000%Z |}.
Definition price_high : PriceRange.t :=
  {| PriceRange.label := "190000-500000"; PriceRange.min := 190000;
     PriceRange.max := Some 500000%Z |}.
Definition price_open : PriceRange.t :=
  {| PriceRange.label := "500000+"; PriceRange.min := 500000; PriceRange.max := None |}.
Definition price_wide : PriceRange.t :=
  {| PriceRange.label := "0-500000"; PriceRange.min := 0; PriceRange.max := Some 500000%Z |}.

Definition all_prices : list PriceRange.t := [price_low; price_mid; price_high; price_open].

Definition okaloosa : Config :=
  {| county := "Okaloosa"; state := "FL";
     sizeRanges := [band_quarter; band_half; band_one; band_three; band_five; band_large];
     priceRanges := all_prices |}.

(** A run over two queries: one band, two price ranges. *)
Definition two_queries : Config :=
  {| county := "Okaloosa"; state := "FL";
     sizeRanges := [band_three];
     priceRanges := [price_low; price_mid] |}.

Definition one_query (sizeRange : SizeRange.t) (priceRange : PriceRange.t) : Config :=
  {| county := "Okaloosa"; state := "FL";
     sizeRanges := [sizeRange]; priceRanges := [priceRange] |}.

Definition csv_text : string :=
  "SOLD DATE,ADDRESS,ZIP OR POSTAL CODE,PRICE,LOT SIZE" +:+ Utils.newline
  +:+ "May-1-2024,1 Main St,32541,100000,10000" +:+ Utils.newline.

(** The page loads, shows 12 results and a download button, and the click
    delivers a file without a login prompt. *)
Definition page_downloads : Page :=
  {| goto := fun _ => None;
     searchCount := 12;
     downloadButton := true;
     click := None;
     loginModal := false;
     handleRedfinLogin := inr true;
     downloadButtonAfterLogin := true;
     clickAfterLogin := None;
     downloadAfterLogin := inr (Some ("/tmp/playwright/download-2", csv_text));
     download := inr (Some ("/tmp/playwright/download-1", csv_text));
     renameSync := None |}.

(** Every navigation attempt times out. *)
Definition page_unreachable : Page :=
  {| goto := fun _ => Some "page.goto: Timeout 20000ms exceeded.";
     searchCount := 0;
     downloadButton := false;
     click := None;
     loginModal := false;
     handleRedfinLogin := inr false;
     downloadButtonAfterLogin := false;
     clickAfterLogin := None;
     downloadAfterLogin := inl "Timeout 60000ms exceeded while waiting for event";
     download := inl "Timeout 60000ms exceeded while waiting for event";
     renameSync := None |}.


(** The click opens the login prompt, the login succeeds and the second click
    delivers a file. *)
Definition page_login_then_download : Page :=
  {| goto := fun _ => None;
     searchCount := 12;
     downloadButton := true;
     click := None;
     loginModal := true;
     handleRedfinLogin := inr true;
     downloadButtonAfterLogin := true;
     clickAfterLogin := None;
     downloadAfterLogin := inr (Some ("/tmp/playwright/download-2", csv_text));
     download := inr (Some ("/tmp/playwright/download-1", csv_text));
     renameSync := None |}.

Definition world_of (page : SizeRange.t -> PriceRange.t -> Page) : World :=
  {| isoTime := fun n => "2024-05-01T12:00:0" +:+ pretty n +:+ ".000Z";
     nowMs := fun n => (1714564800000 + N.of_nat n)%N;
     rawDataDir := "data/raw";
     DownloadRedfinData.page := page |}.

(** Everything downloads. *)
Definition world_downloads : World := world_of (fun _ _ => page_downloads).

(** Nothing can be reached. *)
Definition world_unreachable : World := world_of (fun _ _ => page_unreachable).

(** The first price range cannot be reached, the others download. *)
Definition world_first_fails : World :=
  world_of (fun _ priceRange =>
    if String.eqb (PriceRange.label priceRange) "0-50000"
    then page_unreachable else page_downloads).


Definition world_login_then_download : World :=
  world_of (fun _ _ => page_login_then_download).

(** The page loads, but its count element reads [No results]; the download
    button is there all the same. *)
Definition page_no_count : Page :=
  {| goto := fun _ => None;
     searchCount := fst (Utils.checkResultCount (Some "No results") 300);
     downloadButton := true;
     click := None;
     loginModal := false;
     handleRedfinLogin := inr true;
     downloadButtonAfterLogin := true;
     clickAfterLogin := None;
     downloadAfterLogin := inr (Some ("/tmp/playwright/download-2", csv_text));
     download := inr (Some ("/tmp/playwright/download-1", csv_text));
     renameSync := None |}.

Definition world_no_count : World := world_of (fun _ _ => page_no_count).

(** The log file after a run of one query that downloads. *)
Definition ledger_after (sizeRange : SizeRange.t) (priceRange : PriceRange.t)
    : list JS.JObject :=
  ledger (snd (downloadRedfinData world_downloads (one_query sizeRange priceRange)
                 (start []))).

(** Sessions of the single-query script. *)
Definition gis_csv_url : string :=
  "https://www.redfin.com/stingray/api/gis-csv?al=1&region_id=482&region_type=5".

Definition session (download : option (string + option (string * string)))
    (urls : list SimpleDownload.DownloadInfo)
    (answers : list SimpleDownload.HttpResponse) : SimpleDownload.Session :=
  {| SimpleDownload.isoTime := fun n => "2024-05-01T12:00:0" +:+ pretty n +:+ ".000Z";
     SimpleDownload.rawDataDir := "data/raw";
     SimpleDownload.interceptedCsvData := None;
     SimpleDownload.csvUrl := None;
     SimpleDownload.loginRequired := false;
     SimpleDownload.handleRedfinLogin := inr true;
     SimpleDownload.downloadButtonAfterLogin := false;
     SimpleDownload.clickAfterLogin := None;
     SimpleDownload.interceptedAfterLogin := None;
     SimpleDownload.download := download;
     SimpleDownload.extractDownloadUrls := urls;
     SimpleDownload.http := fun _ => answers;
     SimpleDownload.browserGoto := fun _ => None |}.

Definition gis_csv_item : SimpleDownload.DownloadInfo :=
  {| SimpleDownload.url := gis_csv_url; SimpleDownload.filename := "redfin_2024-05-01.csv" |}.

(** No download event; the replay of the export URL is answered with status
    200 and an empty body. *)
Definition session_empty_replay : SimpleDownload.Session :=
  session None [gis_csv_item] [SimpleDownload.Response 200 "OK" EmptyString].

(** The browser reports a completed download whose file is empty. *)
Definition session_empty_download : SimpleDownload.Session :=
  session (Some (inr (Some ("/tmp/playwright/download-1", EmptyString)))) [] [].

(** No download event; the replay is refused. *)
Definition session_forbidden : SimpleDownload.Session :=
  session None [gis_csv_item] [SimpleDownload.Response 403 "Forbidden" EmptyString].

(** What a capture leaves behind: the flag, status and method of each log
    entry, and the saved files with their sizes. *)
Definition outcome (s : SimpleDownload.Session)
    : bool * list (option JS.JValue * option JS.JValue) * list (string * nat) :=
  let done := snd (SimpleDownload.capture s (SimpleDownload.start [])) in
  (SimpleDownload.downloadSuccess done,
   (fun entry => (JS.obj_get entry "status", JS.obj_get entry "method"))
     <$> SimpleDownload.ledger done,
   (fun file => (fst file, String.length (snd file)))
     <$> map_to_list (SimpleDownload.files done)).

End Scenario.

(** * Properties *)

Section Numbers.

Local Open Scope Q_scope.

Lemma Qle_bool_false (x y : Q) : Qle_bool x y = false -> y < x.
Proof.
  intros H. apply Qnot_le_lt. intros Hle.
  apply Qle_bool_iff in Hle. congruence.
Qed.

Lemma index_in_range {A} (arr : list A) (k : Z) :
  (0 <= k < Z.of_nat (length arr))%Z -> is_Some (JS.index arr k).
Proof.
  intros [H0 H1]. unfold JS.index.
  destruct (k <? 0)%Z eqn:E; [apply Z.ltb_lt in E; lia|].
  apply lookup_lt_is_Some. lia.
Qed.

Lemma floor_in_range (x : Q) (n : Z) :
  0 <= x -> x <= inject_Z n -> (0 <= JS.floor x <= n)%Z.
Proof.
  intros H0 H1. unfold JS.floor. split.
  - change 0%Z with (Qfloor 0). now apply Qfloor_resp_le.
  - rewrite <- (Qfloor_Z n). now apply Qfloor_resp_le.
Qed.

Lemma ceil_in_range (x : Q) (n : Z) :
  0 <= x -> x <= inject_Z n -> (0 <= JS.ceil x <= n)%Z.
Proof.
  intros H0 H1. unfold JS.ceil. split.
  - change 0%Z with (Qceiling 0). now apply Qceiling_resp_le.
  - rewrite <- (Qceiling_Z n). now apply Qceiling_resp_le.
Qed.

End Numbers.

Import ProcessData.

Section Categories.

Local Open Scope Q_scope.

Local Ltac split_breakpoints :=
  repeat match goal with
  | |- context [Qle_bool ?x ?y] =>
      let E := fresh "E" in
      destruct (Qle_bool x y) eqn:E;
      [apply Qle_bool_iff in E | apply Qle_bool_false in E]
  end.

(** C7. [categorizeLotSize] is decided by its argument alone through the
    breakpoints 0.25, 0.5, 1, 3 and 5: at most 0.25 acres is "0-0.25", above
    0.25 and at most 0.5 is "0.25-0.5", above 0.5 and at most 1 is "0.5-1",
    above 1 and at most 3 is "1-3", above 3 and at most 5 is "3-5", above 5
    is "5+"; 0.25 acres is "0-0.25" and 0.2500001 acres is "0.25-0.5". *)
Theorem categorizeLotSize_breakpoints :
  (forall acres : Q,
      (categorizeLotSize acres = "0-0.25"%string <-> acres <= 0.25) /\
      (categorizeLotSize acres = "0.25-0.5"%string <-> 0.25 < acres <= 0.5) /\
      (categorizeLotSize acres = "0.5-1"%string <-> 0.5 < acres <= 1) /\
      (categorizeLotSize acres = "1-3"%string <-> 1 < acres <= 3) /\
      (categorizeLotSize acres = "3-5"%string <-> 3 < acres <= 5) /\
      (categorizeLotSize acres = "5+"%string <-> 5 < acres)) /\
  categorizeLotSize 0.25 = "0-0.25"%string /\
  categorizeLotSize 0.2500001 = "0.25-0.5"%string.
Proof.
  split; [|split; reflexivity].
  intros acres. unfold categorizeLotSize. split_breakpoints.
  all: repeat split; intros; try discriminate; try reflexivity; try lra.
Qed.

End Categories.

Section Percentiles.

Local Open Scope Q_scope.

(** The interpolation index [(p / 100) * (n - 1)] stays inside the array. *)
Lemma percentile_index_range (n : nat) (p : Q) :
  (0 < n)%nat -> 0 <= p <= 100 ->
  0 <= (p / 100) * (inject_Z (Z.of_nat n) - 1) <= inject_Z (Z.of_nat n - 1).
Proof.
  intros Hn [Hp0 Hp1].
  assert (H1n : 1 <= inject_Z (Z.of_nat n)).
  { change 1 with (inject_Z 1). rewrite <- Zle_Qle. lia. }
  assert (Hq : 0 <= p / 100 <= 1).
  { split.
    - apply Qle_shift_div_l; [reflexivity | lra].
    - apply Qle_shift_div_r; [reflexivity | lra]. }
  unfold Z.sub. rewrite inject_Z_plus, inject_Z_opp. change (inject_Z 1) with 1.
  destruct Hq as [Hq0 Hq1].
  set (q := p / 100) in *. set (m := inject_Z (Z.of_nat n)) in *.
  assert (Ha : 0 <= q * (m - 1)) by (apply Qmult_le_0_compat; lra).
  assert (Hb : 0 <= (1 - q) * (m - 1)) by (apply Qmult_le_0_compat; lra).
  clearbody q m. split; lra.
Qed.

(** For a non-empty array and a percentile between 0 and 100 both array
    reads of [calculatePercentile] succeed and the result is the interpolated
    number. *)
Lemma calculatePercentile_value (a : list Q) (p : Q) :
  a <> [] -> 0 <= p <= 100 ->
  exists lo hi v,
    JS.index a (JS.floor ((p / 100) * (inject_Z (Z.of_nat (length a)) - 1))) = Some lo /\
    JS.index a (JS.ceil ((p / 100) * (inject_Z (Z.of_nat (length a)) - 1))) = Some hi /\
    calculatePercentile a p = Some v /\
    v == lo + (hi - lo) *
           ((p / 100) * (inject_Z (Z.of_nat (length a)) - 1)
            - inject_Z (JS.floor ((p / 100) * (inject_Z (Z.of_nat (length a)) - 1)))).
Proof.
  intros Hne Hp.
  assert (Hn : (0 < length a)%nat) by (destruct a; [congruence | simpl; lia]).
  destruct (percentile_index_range (length a) p Hn Hp) as [Hi0 Hi1].
  unfold calculatePercentile.
  set (i := (p / 100) * (inject_Z (Z.of_nat (length a)) - 1)) in *.
  destruct (floor_in_range i _ Hi0 Hi1) as [Hf0 Hf1].
  destruct (ceil_in_range i _ Hi0 Hi1) as [Hc0 Hc1].
  destruct (index_in_range a (JS.floor i)) as [lo Hlo]; [lia|].
  destruct (index_in_range a (JS.ceil i)) as [hi Hhi]; [lia|].
  exists lo, hi.
  destruct (JS.floor i =? JS.ceil i)%Z eqn:E.
  - apply Z.eqb_eq in E. exists lo. rewrite Hlo.
    repeat split; try assumption.
    rewrite E in Hlo. rewrite Hhi in Hlo. injection Hlo as ->. ring.
  - rewrite Hlo, Hhi. simpl. eexists. repeat split; reflexivity.
Qed.

(** C8. For a non-empty array [a] and a percentile [p] between 0 and 100,
    with [i = (p / 100) * (length a - 1)], both [a[floor i]] and [a[ceil i]]
    exist and [calculatePercentile a p] is the number
    [a[floor i] + (a[ceil i] - a[floor i]) * (i - floor i)]; on
    [10, 20, 30, 40] the 25th percentile is 17.5 and the 75th is 32.5.
    (Sortedness of [a] is not needed for the equation.) *)
Theorem calculatePercentile_interpolation :
  (forall (a : list Q) (p : Q),
      a <> [] -> 0 <= p <= 100 ->
      exists lo hi v,
        JS.index a (JS.floor ((p / 100) * (inject_Z (Z.of_nat (length a)) - 1))) = Some lo /\
        JS.index a (JS.ceil ((p / 100) * (inject_Z (Z.of_nat (length a)) - 1))) = Some hi /\
        calculatePercentile a p = Some v /\
        v == lo + (hi - lo) *
               ((p / 100) * (inject_Z (Z.of_nat (length a)) - 1)
                - inject_Z (JS.floor ((p / 100) * (inject_Z (Z.of_nat (length a)) - 1))))) /\
  (exists v, calculatePercentile [10; 20; 30; 40] 25 = Some v /\ v == 17.5) /\
  (exists v, calculatePercentile [10; 20; 30; 40] 75 = Some v /\ v == 32.5).
Proof.
  split.
  - apply calculatePercentile_value.
  - split; eexists; (split; [vm_compute; reflexivity | reflexivity]).
Qed.

(** The theorem applied to the two-element array [3, 7] at the median
    percentile. *)
Lemma calculatePercentile_interpolation_witness :
  exists lo hi v,
    JS.index [3; 7] (JS.floor ((50 / 100) * (inject_Z (Z.of_nat (length [3; 7])) - 1))) = Some lo /\
    JS.index [3; 7] (JS.ceil ((50 / 100) * (inject_Z (Z.of_nat (length [3; 7])) - 1))) = Some hi /\
    calculatePercentile [3; 7] 50 = Some v /\
    v == lo + (hi - lo) *
           ((50 / 100) * (inject_Z (Z.of_nat (length [3; 7])) - 1)
            - inject_Z (JS.floor ((50 / 100) * (inject_Z (Z.of_nat (length [3; 7])) - 1)))).
Proof.
  apply (proj1 calculatePercentile_interpolation [3; 7] 50).
  - discriminate.
  - split; discriminate.
Defined.

End Percentiles.

Section Interpolation.

Local Open Scope Q_scope.

Lemma floor_unique (x : Q) (z : Z) :
  inject_Z z <= x -> x < inject_Z (z + 1) -> JS.floor x = z.
Proof.
  intros H0 H1. unfold JS.floor.
  assert (z <= Qfloor x)%Z.
  { rewrite <- (Qfloor_Z z). now apply Qfloor_resp_le. }
  assert (Qfloor x < z + 1)%Z.
  { rewrite Zlt_Qlt. eapply Qle_lt_trans; [apply Qfloor_le | exact H1]. }
  lia.
Qed.


Lemma floor_le_ceil (x : Q) : (JS.floor x <= JS.ceil x)%Z.
Proof. unfold JS.floor, JS.ceil. rewrite Zle_Qle. apply Qle_floor_ceiling. Qed.

Lemma ceil_le_floor_succ (x : Q) : (JS.ceil x <= JS.floor x + 1)%Z.
Proof.
  unfold JS.ceil, JS.floor.
  assert (Qceiling x - 1 < Qfloor x + 1)%Z; [|lia].
  rewrite Zlt_Qlt. eapply Qlt_trans; [apply Qceiling_lt | apply Qlt_floor].
Qed.

Lemma fraction_range (x : Q) : 0 <= x - inject_Z (JS.floor x) < 1.
Proof.
  unfold JS.floor. pose proof (Qfloor_le x) as H0. pose proof (Qlt_floor x) as H1.
  rewrite inject_Z_plus in H1. change (inject_Z 1) with 1 in H1. split; lra.
Qed.

Lemma sorted_lookup_le (a : list Q) (i j : nat) (x y : Q) :
  StronglySorted Qle a -> (i <= j)%nat -> a !! i = Some x -> a !! j = Some y -> x <= y.
Proof.
  intros Hs. revert i j. induction Hs as [|h t Hs IH Hall]; intros i j Hij Hi Hj.
  - discriminate.
  - destruct i as [|i], j as [|j]; simpl in *.
    + injection Hi as <-. injection Hj as <-. lra.
    + injection Hi as <-. rewrite Forall_forall in Hall.
      apply Hall. eapply list_elem_of_lookup_2; eauto.
    + lia.
    + eapply IH; [|eassumption..]. lia.
Qed.

Lemma sorted_index_le (a : list Q) (i j : Z) (x y : Q) :
  StronglySorted Qle a -> (i <= j)%Z ->
  JS.index a i = Some x -> JS.index a j = Some y -> x <= y.
Proof.
  unfold JS.index. intros Hs Hij Hi Hj.
  destruct (i <? 0)%Z eqn:Ei; [discriminate|].
  destruct (j <? 0)%Z eqn:Ej; [discriminate|].
  apply Z.ltb_ge in Ei, Ej.
  eapply (sorted_lookup_le a (Z.to_nat i) (Z.to_nat j)); eauto. lia.
Qed.

(** An interpolated value lies between the two array elements it mixes. *)
Lemma interpolate_between (a : list Q) (t v : Q) :
  StronglySorted Qle a -> interpolate a t = Some v ->
  exists lo hi, JS.index a (JS.floor t) = Some lo /\ JS.index a (JS.ceil t) = Some hi /\
                lo <= v /\ v <= hi.
Proof.
  intros Hs. unfold interpolate.
  destruct (JS.index a (JS.floor t)) as [lo|] eqn:Hlo; [|discriminate].
  destruct (JS.index a (JS.ceil t)) as [hi|] eqn:Hhi; [|discriminate].
  simpl. intros [= <-]. exists lo, hi.
  split; [reflexivity|]. split; [reflexivity|].
  assert (Hlh : lo <= hi).
  { eapply sorted_index_le; [exact Hs | | exact Hlo | exact Hhi].
    apply floor_le_ceil. }
  destruct (fraction_range t) as [Hf0 Hf1].
  set (f := t - inject_Z (JS.floor t)) in *. clearbody f.
  assert (0 <= (hi - lo) * f) by (apply Qmult_le_0_compat; lra).
  assert (0 <= (hi - lo) * (1 - f)) by (apply Qmult_le_0_compat; lra).
  split; lra.
Qed.

(** On a sorted array the interpolation is monotone in the position. *)
Lemma interpolate_monotone (a : list Q) (t u v w : Q) :
  StronglySorted Qle a -> t <= u ->
  interpolate a t = Some v -> interpolate a u = Some w -> v <= w.
Proof.
  intros Hs Htu Hv Hw.
  destruct (Z.eq_dec (JS.floor t) (JS.floor u)) as [Heq|Hne].
  - unfold interpolate in Hv, Hw. rewrite <- Heq in Hw.
    destruct (JS.index a (JS.floor t)) as [lo|] eqn:Hlo; [|discriminate].
    destruct (JS.index a (JS.ceil t)) as [h1|] eqn:Hh1; [|discriminate].
    destruct (JS.index a (JS.ceil u)) as [h2|] eqn:Hh2; [|discriminate].
    simpl in Hv, Hw. injection Hv as <-. injection Hw as <-.
    assert (H12 : h1 <= h2).
    { eapply sorted_index_le; [exact Hs | | exact Hh1 | exact Hh2].
      now apply Qceiling_resp_le. }
    assert (Hl1 : lo <= h1).
    { eapply sorted_index_le; [exact Hs | | exact Hlo | exact Hh1].
      apply floor_le_ceil. }
    destruct (fraction_range t) as [Hf0 _].
    set (k := inject_Z (JS.floor t)) in *. clearbody k.
    assert (0 <= (h2 - h1) * (t - k)) by (apply Qmult_le_0_compat; lra).
    assert (0 <= (h2 - lo) * (u - t)) by (apply Qmult_le_0_compat; lra).
    lra.
  - assert (Hlt : (JS.floor t < JS.floor u)%Z).
    { pose proof (Qfloor_resp_le t u Htu). unfold JS.floor in *. lia. }
    destruct (interpolate_between a t v Hs Hv) as (l1 & h1 & Hl1 & Hh1 & _ & Hvh).
    destruct (interpolate_between a u w Hs Hw) as (l2 & h2 & Hl2 & Hh2 & Hlw & _).
    assert (h1 <= l2).
    { eapply sorted_index_le; [exact Hs | | exact Hh1 | exact Hl2].
      pose proof (ceil_le_floor_succ t). lia. }
    lra.
Qed.

End Interpolation.

Section Quartiles.

Local Open Scope Q_scope.

(** [calculatePercentile] is the interpolation at [(p / 100) * (n - 1)]; its
    shortcut for an integral index returns the same number. *)
Lemma calculatePercentile_interpolate (a : list Q) (p v : Q) :
  calculatePercentile a p = Some v ->
  exists v', interpolate a ((p / 100) * (inject_Z (Z.of_nat (length a)) - 1)) = Some v' /\
             v == v'.
Proof.
  unfold calculatePercentile, interpolate.
  set (i := (p / 100) * (inject_Z (Z.of_nat (length a)) - 1)).
  destruct (JS.floor i =? JS.ceil i)%Z eqn:E.
  - apply Z.eqb_eq in E. intros Hv. rewrite <- E, Hv. simpl.
    eexists. split; [reflexivity | ring].
  - intros Hv. exists v. split; [exact Hv | reflexivity].
Qed.


(** The two medians of the project notes. *)
Example calculateMedian_odd : calculateMedian [100; 200; 300] = Some 200.
Proof. reflexivity. Qed.

Example calculateMedian_even :
  exists v, calculateMedian [100; 200] = Some v /\ v == 150.
Proof. eexists. split; [vm_compute; reflexivity | reflexivity]. Qed.

End Quartiles.

Section Buckets.

Local Open Scope Q_scope.



End Buckets.

Section Matrix.

Local Open Scope Q_scope.








End Matrix.


Section Ingestion.

Local Open Scope Q_scope.

Lemma or_else_missing (row : Row) (header fallback : string) :
  cell_missing row header -> JS.or_else (row !! header) fallback = fallback.
Proof. intros [-> | ->]; reflexivity. Qed.

(** A row without a ZIP cell yields [null]. *)
Lemma processRecord_no_zip (row : Row) :
  cell_missing row "ZIP OR POSTAL CODE" -> cell_missing row "Zip Code" ->
  processRecord row = None.
Proof.
  intros H1 H2. unfold processRecord.
  rewrite (or_else_missing row "ZIP OR POSTAL CODE") by assumption.
  rewrite (or_else_missing row "Zip Code") by assumption.
  cbn [JS.truthy negb]. now rewrite !orb_true_r.
Qed.

(** C6 (as the code has it). The row PRICE 100000, LOT SIZE 10000 with
    ZIP OR POSTAL CODE 32541 is ingested with 0.2296 acres, 435600 dollars per
    acre and size category "0-0.25"; and every row whose ZIP cell is missing
    (absent or empty under both accepted headers) is dropped by
    [processRecord] and leaves every bucket of the market matrix as it is
    without that row. *)
Theorem processRecord_ingestion :
  (exists r, processRecord row_redfin_header = Some r /\
             acres r == 0.2296 /\ pricePerAcre r == 435600 /\
             sizeCategory r = "0-0.25"%string) /\
  (forall row : Row,
      cell_missing row "ZIP OR POSTAL CODE" -> cell_missing row "Zip Code" ->
      processRecord row = None /\
      forall before after : list Row,
        generateMarketMatrix (processCsvFile (before ++ row :: after)) =
        generateMarketMatrix (processCsvFile (before ++ after))).
Proof.
  split.
  - eexists. split; [vm_compute; reflexivity|].
    cbn [acres pricePerAcre sizeCategory]. repeat split; reflexivity.
  - intros row H1 H2. pose proof (processRecord_no_zip row H1 H2) as Hnone.
    split; [exact Hnone|]. intros before after.
    unfold processCsvFile. rewrite !omap_app. cbn [omap list_omap]. now rewrite Hnone.
Qed.

(** The theorem at the row whose ZIP cell sits under the header [ZIP]. *)
Lemma processRecord_ingestion_witness :
  processRecord row_zip_header = None /\
  forall before after : list Row,
    generateMarketMatrix (processCsvFile (before ++ row_zip_header :: after)) =
    generateMarketMatrix (processCsvFile (before ++ after)).
Proof.
  apply (proj2 processRecord_ingestion row_zip_header); left; vm_compute; reflexivity.
Defined.

(** C6 as stated fails: with the ZIP cell under the header [ZIP] the row is
    dropped, and under the header the code reads the price per acre is 435600,
    which is not 435536.06 even to a whole dollar. *)
Lemma processRecord_ingestion_counterexample :
  ~ ingested_as_stated row_zip_header /\ ~ ingested_as_stated row_redfin_header.
Proof.
  split; intros (r & Hr & Ha & Hp & Hc).
  - vm_compute in Hr. discriminate.
  - vm_compute in Hr. injection Hr as <-.
    unfold close_to in Hp. cbn [pricePerAcre] in Hp.
    revert Hp. vm_compute. intros Hp. apply Hp. reflexivity.
Qed.

End Ingestion.

(** ** The batch loop *)

Section BatchLoop.

Import DownloadRedfinData.

Local Ltac unfold_steps :=
  cbv [try_block login_branch save_download createSafeFilename rename clicked
       logDownload waitForTimeout catch_block
       JS.await JS.try_catch JS.bind JS.ret JS.throw JS.continue JS.get JS.modify
       mbind mret JS.step_bind JS.step_ret] in *.

(** The navigation loop ends after at most three attempts, loaded or thrown,
    and touches neither the log nor the files. *)
Lemma navigate_cases (p : Page) (st : Run) :
  (exists st', navigate p maxAttempts 0 st = (JS.Normal tt, st') /\
               ledger st' = ledger st /\ (exists ms, waits st' = waits st ++ ms)) \/
  (exists msg st', navigate p maxAttempts 0 st = (JS.Throw msg, st') /\
                   ledger st' = ledger st).
Proof.
  unfold maxAttempts. cbn [navigate]. unfold_steps.
  destruct (goto p 1); [|left; eexists; split; [reflexivity|split; [done|by eexists]]].
  cbn. destruct (goto p 2).
  2:{ left. eexists. split; [reflexivity|]. split; [done|]. cbn.
      rewrite <- app_assoc. by eexists. }
  cbn. destruct (goto p 3).
  2:{ left. eexists. split; [reflexivity|]. split; [done|]. cbn.
      rewrite <- !app_assoc. by eexists. }
  right. do 2 eexists. split; [reflexivity|done].
Qed.

(** When the [try] block throws, nothing has been logged for the query yet. *)
Lemma try_block_throw_ledger (w : World) (c : string) (s : SizeRange.t)
    (p : PriceRange.t) (url : string) (st st' : Run) (msg : string) :
  try_block w c s p url st = (JS.Throw msg, st') -> ledger st' = ledger st.
Proof.
  unfold try_block. cbv [mbind mret JS.step_bind JS.step_ret JS.bind JS.get].
  destruct (Utils.isAlreadyDownloaded _ _ _ _); [cbv [JS.modify JS.continue]; discriminate|].
  destruct (navigate_cases (page w s p) st) as [(s1 & -> & Hl & _) | (m1 & s1 & -> & Hl)].
  2:{ intros [= <- <-]. done. }
  unfold_steps.
  repeat (case_match; simplify_eq; try discriminate); cbn; intros; simplify_eq; cbn; done.
Qed.

(** When the [try] block completes normally the last pause is 15 seconds. *)
Lemma try_block_normal_wait (w : World) (c : string) (s : SizeRange.t)
    (p : PriceRange.t) (url : string) (st st' : Run) :
  try_block w c s p url st = (JS.Normal tt, st') -> final_wait st' = Some 15000%N.
Proof.
  unfold try_block, final_wait. cbv [mbind mret JS.step_bind JS.step_ret JS.bind JS.get].
  destruct (Utils.isAlreadyDownloaded _ _ _ _); [cbv [JS.modify JS.continue]; discriminate|].
  destruct (navigate_cases (page w s p) st) as [(s1 & -> & Hl & _) | (m1 & s1 & -> & Hl)].
  2:{ discriminate. }
  unfold_steps.
  repeat (case_match; simplify_eq; try discriminate); cbn; intros; simplify_eq; cbn;
    apply last_snoc.
Qed.

(** The three kinds of failure of a query make the [try] block throw:
    exhausted navigation retries, a failed login, and a download that does not
    arrive. *)
Lemma navigation_exhausted_throws (w : World) (c : string) (s : SizeRange.t)
    (p : PriceRange.t) (url m1 m2 m3 : string) (st : Run) :
  Utils.isAlreadyDownloaded (ledger st) c s p = false ->
  goto (page w s p) 1 = Some m1 -> goto (page w s p) 2 = Some m2 ->
  goto (page w s p) 3 = Some m3 ->
  try_block w c s p url st =
  (JS.Throw ("Failed to navigate after 3 attempts: " +:+ m3),
   add_wait 5000 (add_wait 5000 st)).
Proof.
  intros Hnew H1 H2 H3. unfold try_block, maxAttempts.
  cbn [navigate]. unfold_steps. rewrite Hnew, H1. cbn. rewrite H2. cbn. now rewrite H3.
Qed.

Lemma login_failure_throws (w : World) (c : string) (s : SizeRange.t)
    (p : PriceRange.t) (url : string) (st : Run) :
  Utils.isAlreadyDownloaded (ledger st) c s p = false ->
  goto (page w s p) 1 = None -> searchCount (page w s p) <> 0%N ->
  downloadButton (page w s p) = true -> click (page w s p) = None ->
  loginModal (page w s p) = true -> handleRedfinLogin (page w s p) = inr false ->
  try_block w c s p url st =
  (JS.Throw "Login failed", add_wait 3000 (add_wait 2000 st)).
Proof.
  intros Hnew Hgo Hcount Hbutton Hclick Hmodal Hlogin. unfold try_block, maxAttempts.
  cbn [navigate]. unfold_steps. rewrite Hnew, Hgo.
  apply N.eqb_neq in Hcount. rewrite Hcount, Hbutton, Hclick, Hmodal, Hlogin.
  reflexivity.
Qed.

Lemma download_error_throws (w : World) (c : string) (s : SizeRange.t)
    (p : PriceRange.t) (url msg : string) (st : Run) :
  Utils.isAlreadyDownloaded (ledger st) c s p = false ->
  goto (page w s p) 1 = None -> searchCount (page w s p) <> 0%N ->
  downloadButton (page w s p) = true -> click (page w s p) = None ->
  loginModal (page w s p) = false -> download (page w s p) = inl msg ->
  try_block w c s p url st = (JS.Throw msg, add_wait 3000 (add_wait 2000 st)).
Proof.
  intros Hnew Hgo Hcount Hbutton Hclick Hmodal Hdownload. unfold try_block, maxAttempts.
  cbn [navigate]. unfold_steps. rewrite Hnew, Hgo.
  apply N.eqb_neq in Hcount. rewrite Hcount, Hbutton, Hclick, Hmodal, Hdownload.
  reflexivity.
Qed.

(** The [catch] block logs the error, counts the attempt, pauses 10 seconds
    and goes on to the next iteration. *)
Lemma catch_block_run (w : World) (c : string) (s : SizeRange.t) (p : PriceRange.t)
    (url msg : string) (st : Run) :
  catch_block w c s p url msg st =
  (JS.Continue,
   add_wait 10000
     (incr_total
        (tick (set_ledger
                 (Utils.logDownload (isoTime w (ticks st)) (error_info c s p msg url)
                    (ledger st)) st)))).
Proof. reflexivity. Qed.

(** An iteration either completes as its [try] block did, or, when the block
    threw, as its [catch] block does. *)
Lemma process_query_run (w : World) (config : Config) (s : SizeRange.t)
    (p : PriceRange.t) (st : Run) :
  process_query w config s p st =
  match try_block w (county config) s p (searchUrl config s p) st with
  | (JS.Throw msg, st') => catch_block w (county config) s p (searchUrl config s p) msg st'
  | done => done
  end.
Proof. reflexivity. Qed.

Lemma process_query_no_throw (w : World) (config : Config) (s : SizeRange.t)
    (p : PriceRange.t) (st : Run) (msg : string) (st' : Run) :
  process_query w config s p st <> (JS.Throw msg, st').
Proof.
  rewrite process_query_run.
  destruct (try_block _ _ _ _ _ st) as [[[]|m|] s1]; discriminate.
Qed.

End BatchLoop.

Section Loops.

Context {S A : Type}.

(** A loop over a concatenation runs the first part and then, unless that
    threw, the second part. *)
Lemma for_of_app (l1 l2 : list A) (body : A -> JS.Step S unit) (st : S) :
  JS.for_of (l1 ++ l2) body st =
  match JS.for_of l1 body st with
  | (JS.Throw msg, st') => (JS.Throw msg, st')
  | (_, st') => JS.for_of l2 body st'
  end.
Proof.
  revert st. induction l1 as [|x l1 IH]; intros st; [reflexivity|].
  cbn [app JS.for_of]. destruct (body x st) as [[[]|msg|] st']; auto.
Qed.


End Loops.

Section NestedLoops.

Context {S A B : Type}.

Lemma for_of_pairs (x : A) (ys : list B) (body : A -> B -> JS.Step S unit) (st : S) :
  JS.for_of (y ← ys; [(x, y)]) (fun q => body (fst q) (snd q)) st =
  JS.for_of ys (body x) st.
Proof.
  revert st. induction ys as [|y ys IH]; intros st; [reflexivity|].
  cbn [mbind list_bind app JS.for_of fst snd].
  destruct (body x y st) as [[[]|msg|] st']; auto.
Qed.

(** Two nested loops visit the pairs in row order. *)
Lemma for_of_nested (xs : list A) (f : A -> list B) (body : A -> B -> JS.Step S unit)
    (st : S) :
  JS.for_of xs (fun x => JS.for_of (f x) (body x)) st =
  JS.for_of (x ← xs; y ← f x; [(x, y)]) (fun q => body (fst q) (snd q)) st.
Proof.
  revert st. induction xs as [|x xs IH]; intros st; [reflexivity|].
  cbn [mbind list_bind JS.for_of]. rewrite for_of_app, for_of_pairs.
  destruct (JS.for_of (f x) (body x) st) as [[[]|msg|] st']; auto.
Qed.

End NestedLoops.

Section Batch.

Import DownloadRedfinData.

Lemma downloadRedfinData_flat (w : World) (config : Config) (st : Run) :
  downloadRedfinData w config st = run_queries w config (queries config) st.
Proof. apply for_of_nested. Qed.


(** What an iteration does when its [try] block throws. *)
Lemma process_query_caught (w : World) (config : Config) (s : SizeRange.t)
    (p : PriceRange.t) (st thrown : Run) (msg : string) :
  try_block w (county config) s p (searchUrl config s p) st = (JS.Throw msg, thrown) ->
  exists logged,
    process_query w config s p st = (JS.Continue, logged) /\
    ledger logged =
      Utils.logDownload (isoTime w (ticks thrown))
        (error_info (county config) s p msg (searchUrl config s p)) (ledger st) /\
    totalDownloads logged = Datatypes.S (totalDownloads thrown) /\
    final_wait logged = Some 10000%N.
Proof.
  intros Hthrow. rewrite process_query_run, Hthrow, catch_block_run.
  eexists. split; [reflexivity|]. cbn.
  rewrite (try_block_throw_ledger _ _ _ _ _ _ _ _ Hthrow).
  split; [reflexivity|]. split; [reflexivity|]. apply last_snoc.
Qed.



End Batch.

Section FailureEntries.

Import DownloadRedfinData.

(** In the single-query script a failed replay of a download URL, with no
    success before it, appends an entry with status "failed" and the message. *)
Lemma replay_failed_logs (s : SimpleDownload.Session) (info : SimpleDownload.DownloadInfo)
    (message : string) (st : SimpleDownload.Capture) :
  SimpleDownload.downloadSuccess st = false ->
  exists entry,
    SimpleDownload.ledger (snd (SimpleDownload.replay_failed s info message st)) =
      SimpleDownload.ledger st ++ [entry] /\
    JS.obj_get entry "status" = Some (JS.JStr "failed") /\
    JS.obj_get entry "error" = Some (JS.JStr message).
Proof.
  intros Hno. unfold SimpleDownload.replay_failed.
  cbv [SimpleDownload.timestamp SimpleDownload.logDownload
       JS.try_catch JS.bind JS.ret JS.throw JS.get JS.modify
       mbind mret JS.step_bind JS.step_ret].
  destruct (JS.includes message "403" && JS.includes (SimpleDownload.url info) "/api/gis-csv");
    [destruct (SimpleDownload.browserGoto s (SimpleDownload.url info))|];
    cbn; rewrite Hno; cbn; eexists; (split; [reflexivity|]); split; reflexivity.
Qed.

(** C4 (as the code has it). Whenever the processing of a query in the batch
    loop throws, the entry appended to the log for that query has the status
    "error" and carries the message of the error; in the single-query script a
    failed replay of a download URL, with no success before it, is logged with
    the status "failed" and the message of the error. *)
Theorem failure_logged_with_status_error :
  (forall (w : World) (config : Config) (sizeRange : SizeRange.t)
          (priceRange : PriceRange.t) (st : Run),
      failure_logged_as "error" w config sizeRange priceRange st) /\
  (forall (s : SimpleDownload.Session) (info : SimpleDownload.DownloadInfo)
          (message : string) (st : SimpleDownload.Capture),
      SimpleDownload.downloadSuccess st = false ->
      exists entry,
        SimpleDownload.ledger (snd (SimpleDownload.replay_failed s info message st)) =
          SimpleDownload.ledger st ++ [entry] /\
        JS.obj_get entry "status" = Some (JS.JStr "failed") /\
        JS.obj_get entry "error" = Some (JS.JStr message)).
Proof.
  split; [|apply replay_failed_logs].
  intros w config sizeRange priceRange st message thrown Hthrow.
  destruct (process_query_caught _ _ _ _ _ _ _ Hthrow) as (logged & Hrun & Hledger & _).
  rewrite Hrun. cbn [snd]. rewrite Hledger. unfold Utils.logDownload.
  eexists. split; [reflexivity|]. split; reflexivity.
Qed.

(** The theorem on a query whose page cannot be reached. *)
Lemma failure_logged_with_status_error_witness :
  exists entry,
    ledger (snd (process_query Scenario.world_unreachable
                   (Scenario.one_query Scenario.band_three Scenario.price_low)
                   Scenario.band_three Scenario.price_low (start []))) = [] ++ [entry] /\
    JS.obj_get entry "status" = Some (JS.JStr "error") /\
    JS.obj_get entry "error" =
      Some (JS.JStr "Failed to navigate after 3 attempts: page.goto: Timeout 20000ms exceeded.").
Proof.
  apply (proj1 failure_logged_with_status_error Scenario.world_unreachable
           (Scenario.one_query Scenario.band_three Scenario.price_low)
           Scenario.band_three Scenario.price_low (start [])
           "Failed to navigate after 3 attempts: page.goto: Timeout 20000ms exceeded."
           (add_wait 5000 (add_wait 5000 (start [])))).
  vm_compute. reflexivity.
Defined.

(** C4 as stated fails: a query whose three navigation attempts time out is
    logged with the status "error", not "failed". *)
Lemma failure_logged_with_status_failed_counterexample :
  ~ failure_logged_as "failed" Scenario.world_unreachable
      (Scenario.one_query Scenario.band_three Scenario.price_low)
      Scenario.band_three Scenario.price_low (start []).
Proof.
  intros H.
  destruct (H "Failed to navigate after 3 attempts: page.goto: Timeout 20000ms exceeded."
              (add_wait 5000 (add_wait 5000 (start []))))
    as (entry & Hledger & Hstatus & _); [vm_compute; reflexivity|].
  vm_compute in Hledger. injection Hledger as <-.
  vm_compute in Hstatus. discriminate.
Qed.

(** C9 (the code at the two kinds of attempt). After a failed attempt the
    loop pauses 10 seconds, after a successful download without login it
    pauses 15 seconds (5 seconds when the download followed a login): the
    pause after a failure is not the longer one. *)
Theorem delay_after_failure_is_shorter :
  final_wait (snd (process_query Scenario.world_unreachable
                     (Scenario.one_query Scenario.band_three Scenario.price_low)
                     Scenario.band_three Scenario.price_low (start []))) = Some 10000%N /\
  final_wait (snd (process_query Scenario.world_downloads
                     (Scenario.one_query Scenario.band_three Scenario.price_low)
                     Scenario.band_three Scenario.price_low (start []))) = Some 15000%N /\
  final_wait (snd (process_query Scenario.world_login_then_download
                     (Scenario.one_query Scenario.band_three Scenario.price_low)
                     Scenario.band_three Scenario.price_low (start []))) = Some 5000%N /\
  (10000 < 15000)%N.
Proof. repeat split; vm_compute; reflexivity. Qed.

(** The two pauses for every environment: 10 seconds when the [try] block
    threw, 15 seconds when it ran to its end. *)
Lemma delay_by_outcome (w : World) (config : Config) (sizeRange : SizeRange.t)
    (priceRange : PriceRange.t) (st : Run) :
  (forall message thrown,
      try_block w (county config) sizeRange priceRange
        (searchUrl config sizeRange priceRange) st = (JS.Throw message, thrown) ->
      final_wait (snd (process_query w config sizeRange priceRange st)) = Some 10000%N) /\
  (forall done,
      try_block w (county config) sizeRange priceRange
        (searchUrl config sizeRange priceRange) st = (JS.Normal tt, done) ->
      final_wait (snd (process_query w config sizeRange priceRange st)) = Some 15000%N).
Proof.
  split.
  - intros message thrown Hthrow.
    destruct (process_query_caught _ _ _ _ _ _ _ Hthrow) as (logged & -> & _ & _ & Hwait).
    exact Hwait.
  - intros done Hdone. rewrite process_query_run, Hdone. cbn [snd].
    eapply try_block_normal_wait, Hdone.
Qed.

End FailureEntries.

Section Partitioner.

Import DownloadRedfinData.

(** With a non-zero cap the partitioner keeps exactly the price ranges whose
    upper bound is absent or at most the cap. *)
Lemma getPriceRangesForSize_capped (sizeRange : SizeRange.t)
    (priceRanges : list PriceRange.t) (cap : Z) (price : PriceRange.t) :
  SizeRange.maxPrice sizeRange = Some cap -> cap <> 0%Z ->
  In price (getPriceRangesForSize sizeRange priceRanges) <->
  In price priceRanges /\
  (PriceRange.max price = None \/
   exists m, PriceRange.max price = Some m /\ (m <= cap)%Z).
Proof.
  intros Hcap Hnz. unfold getPriceRangesForSize. rewrite Hcap.
  destruct (cap =? 0)%Z eqn:E; [apply Z.eqb_eq in E; contradiction|].
  rewrite filter_In. split; intros [Hin H]; (split; [exact Hin|]).
  - destruct (PriceRange.max price) as [m|]; [right|left; reflexivity].
    exists m. split; [reflexivity|]. now apply Z.leb_le.
  - destruct H as [-> | (m & -> & Hm)]; [reflexivity|]. now apply Z.leb_le.
Qed.

(** Without a cap every price range is used. *)
Lemma getPriceRangesForSize_uncapped (sizeRange : SizeRange.t)
    (priceRanges : list PriceRange.t) :
  SizeRange.maxPrice sizeRange = None ->
  getPriceRangesForSize sizeRange priceRanges = priceRanges.
Proof. intros H. unfold getPriceRangesForSize. now rewrite H. Qed.

(** C1 (the code at the failing input). For the band 0-0.25 acres with
    [maxPrice] 190000 and the price list 0-50000, 50000-190000, 190000-500000,
    500000+, the partitioner returns 0-50000, 50000-190000 and the open-ended
    range 500000+: a range without upper bound is kept although the band
    declares a cap. *)
Theorem getPriceRangesForSize_keeps_open_range :
  SizeRange.maxPrice Scenario.band_quarter = Some 190000%Z /\
  PriceRange.max Scenario.price_open = None /\
  getPriceRangesForSize Scenario.band_quarter Scenario.all_prices =
    [Scenario.price_low; Scenario.price_mid; Scenario.price_open] /\
  In Scenario.price_open
     (getPriceRangesForSize Scenario.band_quarter Scenario.all_prices).
Proof.
  split; [reflexivity|]. split; [reflexivity|]. split; [reflexivity|].
  right. right. left. reflexivity.
Qed.

End Partitioner.

Section SkipCheck.

Import DownloadRedfinData.

(** C2 (the code at two failing inputs). [isAlreadyDownloaded] searches the
    text of the log for [zip_sizeLabel_priceLabel].  After the query (5+,
    0-50000) of Okaloosa has been downloaded and logged with status success,
    the check for that same query answers false, and a second run downloads it
    again and logs a second success for the key; and with only a success entry
    for (1-3, 0-500000) in the log, the check for the different query
    (1-3, 0-50000) answers true. *)
Theorem isAlreadyDownloaded_differs_from_success_lookup :
  (fun entry => (JS.obj_get entry "sizeRange", JS.obj_get entry "priceRange",
                 JS.obj_get entry "status"))
    <$> Scenario.ledger_after Scenario.band_large Scenario.price_low =
    [(Some (JS.JStr "5+"), Some (JS.JStr "0-50000"), Some (JS.JStr "success"))] /\
  Utils.isAlreadyDownloaded (Scenario.ledger_after Scenario.band_large Scenario.price_low)
    "Okaloosa" Scenario.band_large Scenario.price_low = false /\
  (fun entry => (JS.obj_get entry "sizeRange", JS.obj_get entry "priceRange",
                 JS.obj_get entry "status"))
    <$> ledger (snd (downloadRedfinData Scenario.world_downloads
                       (Scenario.one_query Scenario.band_large Scenario.price_low)
                       (start (Scenario.ledger_after Scenario.band_large
                                 Scenario.price_low)))) =
    [(Some (JS.JStr "5+"), Some (JS.JStr "0-50000"), Some (JS.JStr "success"));
     (Some (JS.JStr "5+"), Some (JS.JStr "0-50000"), Some (JS.JStr "success"))] /\
  (fun entry => (JS.obj_get entry "sizeRange", JS.obj_get entry "priceRange",
                 JS.obj_get entry "status"))
    <$> Scenario.ledger_after Scenario.band_three Scenario.price_wide =
    [(Some (JS.JStr "1-3"), Some (JS.JStr "0-500000"), Some (JS.JStr "success"))] /\
  Utils.isAlreadyDownloaded (Scenario.ledger_after Scenario.band_three Scenario.price_wide)
    "Okaloosa" Scenario.band_three Scenario.price_low = true.
Proof. repeat split; vm_compute; reflexivity. Qed.

End SkipCheck.

Section ZeroBytes.

(** C5 (the code at two failing inputs). When the replay of the export URL
    is answered with status 200 and an empty body, the script saves a file of
    zero bytes, logs status success with method direct_url and sets its
    success flag; when the browser reports a completed download whose file is
    empty, it moves the empty file and logs status success with method
    traditional.  No later strategy is tried in either case. *)
Theorem zero_byte_capture_logged_as_success :
  Scenario.outcome Scenario.session_empty_replay =
    (true, [(Some (JS.JStr "success"), Some (JS.JStr "direct_url"))],
     [("data/raw/okaloosa-land-sold-1yr-2024-05-01T12-00-00-000Z-1.csv"%string, 0%nat)]) /\
  Scenario.outcome Scenario.session_empty_download =
    (true, [(Some (JS.JStr "success"), Some (JS.JStr "traditional"))],
     [("data/raw/okaloosa-land-sold-1yr-2024-05-01T12-00-00-000Z.csv"%string, 0%nat)]).
Proof. split; vm_compute; reflexivity. Qed.

(** [downloadFileFromUrl] resolves on any 200 answer, whatever the body. *)
Lemma downloadFileFromUrl_resolves_on_200 (message body targetPath : string)
    (rest : list SimpleDownload.HttpResponse) (st : SimpleDownload.Capture) :
  SimpleDownload.downloadFileFromUrl
    (SimpleDownload.Response 200 message body :: rest) targetPath st =
  (JS.Normal targetPath,
   SimpleDownload.set_files (<[targetPath := body]> (SimpleDownload.files st)) st).
Proof. reflexivity. Qed.

(** The sibling script checks the size: an empty file is not logged. *)
Lemma directDownload_skips_empty_file (isoNow filename timestamp : string)
    (ledger : list JS.JObject) :
  DirectDownload.on_finish isoNow filename timestamp EmptyString ledger = ledger.
Proof. reflexivity. Qed.

(** An intercepted response with empty text is not saved by the first
    check. *)
Lemma empty_interception_is_falsy : SimpleDownload.truthy_data (Some EmptyString) = false.
Proof. reflexivity. Qed.

End ZeroBytes.

(** ** Text search in the log *)

Section Text.

Lemma append_cons (x : ascii) (a b : string) : String x a +:+ b = String x (a +:+ b).
Proof. reflexivity. Qed.

Lemma append_assoc (a b c : string) : (a +:+ b) +:+ c = a +:+ b +:+ c.
Proof. induction a as [|x a IH]; [reflexivity|]. now rewrite !append_cons, IH. Qed.

Lemma append_nil_r (a : string) : a +:+ EmptyString = a.
Proof. induction a as [|x a IH]; [reflexivity|]. now rewrite append_cons, IH. Qed.

Lemma prefix_iff (p s : string) :
  String.prefix p s = true <-> exists rest, s = p +:+ rest.
Proof.
  revert s. induction p as [|x p IH]; intros s.
  - destruct s; (split; [intros _; eexists; reflexivity | reflexivity]).
  - destruct s as [|y s]; cbn [String.prefix].
    + split; [discriminate | intros [rest H]; discriminate].
    + destruct (Ascii.ascii_dec x y) as [->|Hne].
      * rewrite IH. split; intros [rest H]; exists rest.
        -- rewrite append_cons. now rewrite H.
        -- rewrite append_cons in H. now injection H.
      * split; [discriminate|]. intros [rest H]. rewrite append_cons in H.
        injection H as H1 _. congruence.
Qed.

(** [includes] decides occurrence. *)
Lemma includes_iff (s sub : string) :
  JS.includes s sub = true <-> JS.occurs_in sub s.
Proof.
  unfold JS.occurs_in. induction s as [|x s IH]; cbn [JS.includes].
  - destruct (String.prefix sub EmptyString) eqn:E.
    + split; [intros _|reflexivity]. apply prefix_iff in E as [rest E].
      exists EmptyString, rest. exact E.
    + split; [discriminate|]. intros (before & after & H).
      destruct before; [|discriminate]. change (EmptyString +:+ sub +:+ after) with (sub +:+ after) in H.
      assert (String.prefix sub EmptyString = true) by (apply prefix_iff; eauto).
      congruence.
  - destruct (String.prefix sub (String x s)) eqn:E.
    + split; [intros _|reflexivity]. apply prefix_iff in E as [rest E].
      exists EmptyString, rest. exact E.
    + rewrite IH. split.
      * intros (before & after & ->). exists (String x before), after. reflexivity.
      * intros (before & after & H). destruct before as [|y before].
        -- change (EmptyString +:+ sub +:+ after) with (sub +:+ after) in H.
           assert (String.prefix sub (String x s) = true) by (apply prefix_iff; eauto).
           congruence.
        -- rewrite append_cons in H. injection H as _ ->. eauto.
Qed.

Lemma occurs_in_here (sub after : string) : JS.occurs_in sub (sub +:+ after).
Proof. exists EmptyString, after. reflexivity. Qed.

Lemma occurs_in_app_r (sub a b : string) : JS.occurs_in sub b -> JS.occurs_in sub (a +:+ b).
Proof.
  intros (before & after & ->). exists (a +:+ before), after. now rewrite append_assoc.
Qed.

Lemma occurs_in_app_l (sub a b : string) : JS.occurs_in sub a -> JS.occurs_in sub (a +:+ b).
Proof.
  intros (before & after & ->). exists before, (after +:+ b).
  now rewrite !append_assoc.
Qed.

Lemma occurs_in_cons (sub : string) (c : ascii) (s : string) :
  JS.occurs_in sub s -> JS.occurs_in sub (String c s).
Proof. intros (before & after & ->). exists (String c before), after. reflexivity. Qed.

Lemma occurs_in_join (sub sep x : string) (parts : list string) :
  x ∈ parts -> JS.occurs_in sub x -> JS.occurs_in sub (JS.join sep parts).
Proof.
  intros Hin Hx. induction Hin as [x parts | x y parts Hin IH].
  - destruct parts; cbn [JS.join]; [exact Hx | now apply occurs_in_app_l].
  - destruct parts as [|z parts]; [inversion Hin|].
    change (JS.join sep (y :: z :: parts)) with (y +:+ sep +:+ JS.join sep (z :: parts)).
    apply occurs_in_app_r, occurs_in_app_r, IH, Hx.
Qed.

(** Text that occurs in the line of a logged entry occurs in the log. *)
Lemma occurs_in_logContent (sub : string) (entry : JS.JObject) (ledger : list JS.JObject) :
  entry ∈ ledger -> JS.occurs_in sub (JS.stringify entry) ->
  JS.occurs_in sub (Utils.logContent ledger).
Proof.
  intros Hin He. induction Hin as [entry ledger | entry other ledger Hin IH];
    cbn [Utils.logContent].
  - now apply occurs_in_app_l.
  - apply occurs_in_app_r, occurs_in_app_r, IH, He.
Qed.

Lemma escape_app (a b : string) : JS.escape (a +:+ b) = JS.escape a +:+ JS.escape b.
Proof.
  induction a as [|x a IH]; [reflexivity|].
  rewrite append_cons. cbn [JS.escape]. now rewrite IH, append_assoc.
Qed.

(** The characters that [createSafeFilename] lets through, and the
    underscore it puts in, are copied by [JSON.stringify]. *)
Lemma escape_char_safe (c : ascii) :
  Utils.safe_char c = true \/ c = "_"%char -> JS.escape_char c = String c EmptyString.
Proof.
  destruct c as [[] [] [] [] [] [] [] []]; intros [H | H];
    solve [reflexivity | discriminate H].
Qed.

Lemma escape_safe_label (label : string) :
  JS.escape (Utils.safe_label label) = Utils.safe_label label.
Proof.
  unfold Utils.safe_label. induction label as [|c label IH]; [reflexivity|].
  cbn [JS.replace_class JS.escape]. rewrite IH, escape_char_safe; [reflexivity|].
  destruct (Utils.safe_char c) eqn:E; cbn [negb]; auto.
Qed.

End Text.

Section SkipAfterSuccess.

Import DownloadRedfinData.

(** Where the skip check does find a logged download: when the county needs no
    JSON escape and both labels consist of letters, digits, dots and hyphens
    only (so that the file name carries them unchanged), a success entry
    written by the batch loop for the query makes [isAlreadyDownloaded]
    answer true. *)
Lemma isAlreadyDownloaded_after_success (ledger : list JS.JObject)
    (isoNow county url : string) (sizeRange : SizeRange.t) (priceRange : PriceRange.t)
    (resultCount now : N) :
  JS.escape county = county ->
  Utils.safe_label (SizeRange.label sizeRange) = SizeRange.label sizeRange ->
  Utils.safe_label (PriceRange.label priceRange) = PriceRange.label priceRange ->
  JS.obj_spread [("timestamp"%string, JS.JStr isoNow)]
    (success_info county sizeRange priceRange resultCount
       (Utils.createSafeFilename county sizeRange priceRange None now) url) ∈ ledger ->
  Utils.isAlreadyDownloaded ledger county sizeRange priceRange = true.
Proof.
  intros Hcounty Hsize Hprice Hin. unfold Utils.isAlreadyDownloaded.
  destruct ledger as [|first rest]; [inversion Hin|].
  apply includes_iff. eapply occurs_in_logContent; [exact Hin|].
  cbv [JS.obj_spread success_info foldl JS.obj_set String.eqb Ascii.eqb Bool.eqb fst snd].
  unfold JS.stringify. apply occurs_in_app_r, occurs_in_app_l.
  eapply occurs_in_join.
  { cbn [fmap list_fmap]. do 6 right. left. }
  cbn [fst snd JS.stringify_value].
  apply occurs_in_app_r, occurs_in_app_r. unfold JS.quote.
  apply occurs_in_cons, occurs_in_app_l.
  unfold Utils.createSafeFilename. rewrite Hsize, Hprice.
  assert (Es : JS.escape (SizeRange.label sizeRange) = SizeRange.label sizeRange)
    by (rewrite <- Hsize; apply escape_safe_label).
  assert (Ep : JS.escape (PriceRange.label priceRange) = PriceRange.label priceRange)
    by (rewrite <- Hprice; apply escape_safe_label).
  rewrite !escape_app, Hcounty, Es, Ep.
  change (JS.escape "_") with "_"%string.
  exists EmptyString, ("_" +:+ JS.escape (pretty now) +:+ JS.escape ".csv").
  change (EmptyString +:+ ?x) with x. now rewrite !append_assoc.
Qed.

End SkipAfterSuccess.

(** ** The figures on IEEE doubles *)

Section Doubles.

Local Open Scope float_scope.

Example double_quarter_acre : Binary64.categorizeLotSize 0.25 = "0-0.25"%string.
Proof. reflexivity. Qed.

Example double_above_quarter_acre :
  Binary64.categorizeLotSize 0.2500001 = "0.25-0.5"%string.
Proof. reflexivity. Qed.

Example double_percentile_25 : Binary64.calculatePercentile [10; 20; 30; 40] 25 = Some 17.5.
Proof. vm_compute. reflexivity. Qed.

Example double_percentile_75 : Binary64.calculatePercentile [10; 20; 30; 40] 75 = Some 32.5.
Proof. vm_compute. reflexivity. Qed.

(** The price per acre of the row PRICE 100000, LOT SIZE 10000. *)
Example double_price_per_acre : 100000 / (10000 / 43560) = 435600.
Proof. reflexivity. Qed.

End Doubles.

(** * Further properties of the code *)

(** ** processData.js: ingestion *)

Section IngestedRecords.

Local Open Scope Q_scope.



End IngestedRecords.

Section Ingested.

Local Open Scope Q_scope.





End Ingested.

Section CellFormats.

Local Open Scope Q_scope.

Lemma digits_stop (a : string) (c : ascii) (b : string) (acc : N) (n : nat) :
  JS.all_digits a = true -> JS.digit_val c = None ->
  JS.digits (a +:+ String c b) acc n =
  (fst (fst (JS.digits a acc n)), snd (fst (JS.digits a acc n)), String c b).
Proof.
  revert acc n. induction a as [|x a IH]; intros acc n Ha Hc.
  - change (EmptyString +:+ String c b) with (String c b). cbn [JS.digits]. now rewrite Hc.
  - rewrite append_cons. cbn [JS.digits JS.all_digits] in *.
    destruct (JS.digit_val x); [|discriminate]. now apply IH.
Qed.

Lemma digits_all (a : string) (acc : N) (n : nat) :
  JS.all_digits a = true -> snd (JS.digits a acc n) = EmptyString.
Proof.
  revert acc n. induction a as [|x a IH]; intros acc n Ha; [reflexivity|].
  cbn [JS.digits JS.all_digits] in *. destruct (JS.digit_val x); [|discriminate]. now apply IH.
Qed.

Lemma digit_not_blank_or_sign (x : ascii) (d : N) :
  JS.digit_val x = Some d ->
  JS.is_ws x = false /\ x <> "-"%char /\ x <> "+"%char /\ x <> "."%char.
Proof.
  destruct x as [[] [] [] [] [] [] [] []]; vm_compute; intros H;
    first [discriminate H | repeat split; discriminate].
Qed.

(** A number followed by a comma reads as the number: the text after the
    first comma is ignored. *)
Lemma parseFloat_comma (a b : string) :
  JS.all_digits a = true -> a <> EmptyString ->
  JS.parseFloat (a +:+ String ","%char b) = JS.parseFloat a.
Proof.
  intros Ha Hne. destruct a as [|x a]; [congruence|].
  pose proof Ha as Hx. cbn [JS.all_digits] in Hx.
  destruct (JS.digit_val x) as [d|] eqn:Ed; [|discriminate].
  destruct (digit_not_blank_or_sign x d Ed) as (Hws & Hm & Hp & Hdot).
  unfold JS.parseFloat. rewrite append_cons. cbn [JS.skip_ws]. rewrite Hws.
  assert (Hsign : forall r, JS.read_sign (String x r) = (false, String x r)).
  { intros r. unfold JS.read_sign.
    destruct x as [[] [] [] [] [] [] [] []]; try reflexivity; congruence. }
  rewrite !Hsign. rewrite <- append_cons.
  rewrite (digits_stop (String x a) ","%char b 0 0 Ha eq_refl).
  pose proof (digits_all (String x a) 0 0 Ha) as Hrest.
  destruct (JS.digits (String x a) 0 0) as [[v k] rest]. cbn [fst snd] in *. subst rest.
  reflexivity.
Qed.

(** A cell that starts with a currency sign does not read as a number. *)
Lemma parseFloat_dollar (b : string) : JS.parseFloat (String "$"%char b) = None.
Proof. reflexivity. Qed.

(** X3. Formats of the price cell that [processRecord] does not undo: a
    price written with a thousands separator is ingested as the digits before
    the first comma (the computed fields are those of the row with that
    shorter price), and a row whose price starts with a dollar sign is
    dropped. *)
Theorem processRecord_formatted_price (row : Row) (b : string) :
  (forall a : string,
      JS.all_digits a = true -> a <> EmptyString ->
      row !! "PRICE"%string = Some (a +:+ String ","%char b) ->
      figures <$> processRecord row =
      figures <$> processRecord (<["PRICE"%string := a]> row)) /\
  (row !! "PRICE"%string = Some (String "$"%char b) -> processRecord row = None).
Proof.
  split.
  - intros a Ha Hne Hrow. unfold processRecord.
    rewrite lookup_insert_eq, !lookup_insert_ne by discriminate. rewrite Hrow.
    assert (Ht : JS.truthy a = true) by (destruct a; [congruence | reflexivity]).
    assert (Ht' : JS.truthy (a +:+ String ","%char b) = true).
    { destruct a; [congruence | reflexivity]. }
    cbn [JS.or_else]. rewrite Ht, Ht', (parseFloat_comma a b Ha Hne).
    destruct (negb (JS.truthy_num (JS.parseFloat a)) || _ || _); [reflexivity|].
    destruct (JS.parseFloat a); [|reflexivity].
    destruct (JS.parseFloat _); reflexivity.
  - intros Hrow. unfold processRecord. rewrite Hrow. cbn [JS.or_else JS.truthy].
    rewrite parseFloat_dollar. reflexivity.
Qed.

(** The theorem on the price 100,000, which is ingested as 100. *)
Lemma processRecord_formatted_price_witness :
  figures <$> processRecord
    (list_to_map [("PRICE", "100,000"); ("LOT SIZE", "10000");
                  ("ZIP OR POSTAL CODE", "32541")]%string) =
  figures <$> processRecord
    (<["PRICE"%string := "100"%string]>
       (list_to_map [("PRICE", "100,000"); ("LOT SIZE", "10000");
                     ("ZIP OR POSTAL CODE", "32541")]%string)).
Proof.
  apply (proj1 (processRecord_formatted_price _ "000") "100" eq_refl ltac:(discriminate)).
  vm_compute. reflexivity.
Defined.


End CellFormats.

(** ** processData.js: order statistics *)

Section OrderStatistics.

Local Open Scope Q_scope.


Lemma index_nil {A} (k : Z) : JS.index (@nil A) k = None.
Proof. unfold JS.index. destruct (k <? 0)%Z; [reflexivity|]. apply lookup_nil. Qed.

Lemma index_out_of_range {A} (arr : list A) (k : Z) :
  (k < 0 \/ Z.of_nat (length arr) <= k)%Z -> JS.index arr k = None.
Proof.
  intros H. unfold JS.index. destruct (k <? 0)%Z eqn:E; [reflexivity|].
  apply Z.ltb_ge in E. apply lookup_ge_None. lia.
Qed.

Lemma calculatePercentile_nil (p : Q) : calculatePercentile [] p = None.
Proof. unfold calculatePercentile. rewrite !index_nil. now destruct (_ =? _)%Z. Qed.


(** The percentiles at the two ends are the first and the last element. *)
Lemma calculatePercentile_ends (a : list Q) :
  calculatePercentile a 0 = head a /\ calculatePercentile a 100 = last a.
Proof.
  unfold calculatePercentile. split.
  - assert (E : 0 / 100 * (inject_Z (Z.of_nat (length a)) - 1) == inject_Z 0) by (field).
    assert (Ef : JS.floor (0 / 100 * (inject_Z (Z.of_nat (length a)) - 1)) = 0%Z)
      by (unfold JS.floor; rewrite E; apply Qfloor_Z).
    assert (Ec : JS.ceil (0 / 100 * (inject_Z (Z.of_nat (length a)) - 1)) = 0%Z)
      by (unfold JS.ceil; rewrite E; apply Qceiling_Z).
    rewrite Ef, Ec. cbn [Z.eqb]. now destruct a.
  - assert (E : 100 / 100 * (inject_Z (Z.of_nat (length a)) - 1)
                == inject_Z (Z.of_nat (length a) - 1)).
    { unfold Z.sub. rewrite inject_Z_plus, inject_Z_opp. change (inject_Z 1) with 1. field. }
    assert (Ef : JS.floor (100 / 100 * (inject_Z (Z.of_nat (length a)) - 1))
                 = (Z.of_nat (length a) - 1)%Z)
      by (unfold JS.floor; rewrite E; apply Qfloor_Z).
    assert (Ec : JS.ceil (100 / 100 * (inject_Z (Z.of_nat (length a)) - 1))
                 = (Z.of_nat (length a) - 1)%Z)
      by (unfold JS.ceil; rewrite E; apply Qceiling_Z).
    rewrite Ef, Ec, Z.eqb_refl.
    unfold JS.index. destruct a as [|x a]; [reflexivity|].
    destruct (Z.of_nat (length (x :: a)) - 1 <? 0)%Z eqn:E0;
      [apply Z.ltb_lt in E0; cbn [length] in E0; lia|].
    rewrite last_lookup.
    replace (Z.to_nat (Z.of_nat (length (x :: a)) - 1)) with (Nat.pred (length (x :: a)))
      by (cbn [length]; lia).
    reflexivity.
Qed.

(** X6. On a sorted array the percentile grows with [p], and between 0 and
    100 it is defined and lies between the first and the last element, which
    are the percentiles 0 and 100. *)
Theorem calculatePercentile_monotone (a : list Q) :
  StronglySorted Qle a ->
  (forall p q v w, p <= q -> calculatePercentile a p = Some v ->
                   calculatePercentile a q = Some w -> v <= w) /\
  calculatePercentile a 0 = head a /\ calculatePercentile a 100 = last a /\
  (forall p, a <> [] -> 0 <= p <= 100 ->
     exists lo v hi, head a = Some lo /\ calculatePercentile a p = Some v /\
                     last a = Some hi /\ lo <= v /\ v <= hi).
Proof.
  intros Hs.
  assert (Hmono : forall p q v w, p <= q -> calculatePercentile a p = Some v ->
                    calculatePercentile a q = Some w -> v <= w).
  { intros p q v w Hpq Hv Hw.
    destruct (calculatePercentile_interpolate _ _ _ Hv) as (v' & Hv' & Ev).
    destruct (calculatePercentile_interpolate _ _ _ Hw) as (w' & Hw' & Ew).
    rewrite Ev, Ew. eapply interpolate_monotone; [exact Hs | | exact Hv' | exact Hw'].
    destruct a as [|x a]; [rewrite calculatePercentile_nil in Hv; discriminate|].
    assert (H1n : 1 <= inject_Z (Z.of_nat (length (x :: a)))).
    { change 1 with (inject_Z 1). rewrite <- Zle_Qle. cbn [length]. lia. }
    set (n := inject_Z (Z.of_nat (length (x :: a)))) in *. clearbody n.
    apply Qmult_le_compat_r; [|lra].
    apply Qmult_le_compat_r; [exact Hpq | discriminate]. }
  destruct (calculatePercentile_ends a) as [H0 H100].
  split; [exact Hmono|]. split; [exact H0|]. split; [exact H100|].
  intros p Hne [Hp0 Hp1].
  destruct (calculatePercentile_value a p Hne (conj Hp0 Hp1)) as (_ & _ & v & _ & _ & Hv & _).
  destruct (calculatePercentile_value a 0 Hne) as (_ & _ & lo & _ & _ & Hlo & _);
    [split; discriminate|].
  destruct (calculatePercentile_value a 100 Hne) as (_ & _ & hi & _ & _ & Hhi & _);
    [split; discriminate|].
  exists lo, v, hi. rewrite <- H0, <- H100. repeat split; try assumption.
  - eapply Hmono; [exact Hp0 | exact Hlo | exact Hv].
  - eapply Hmono; [exact Hp1 | exact Hv | exact Hhi].
Qed.

(** The theorem on the sorted array 10, 20, 30, 40 at the percentile 60. *)
Lemma calculatePercentile_monotone_witness :
  exists lo v hi, head [10; 20; 30; 40] = Some lo /\
                  calculatePercentile [10; 20; 30; 40] 60 = Some v /\
                  last [10; 20; 30; 40] = Some hi /\ lo <= v /\ v <= hi.
Proof.
  apply (fun H => proj2 (proj2 (proj2 (calculatePercentile_monotone [10; 20; 30; 40] H)))).
  - repeat constructor; discriminate.
  - discriminate.
  - split; discriminate.
Defined.

(** X7. Outside the intended inputs: on the empty array the median and every
    percentile are undefined; on an array of one element every percentile,
    whatever [p], is that element; and on an array of two or more elements a
    percentile below 0 or above 100 is undefined. *)
Theorem calculatePercentile_edges :
  calculateMedian [] = None /\
  (forall p, calculatePercentile [] p = None) /\
  (forall x p, calculatePercentile [x] p = Some x) /\
  (forall a p, (2 <= length a)%nat -> p < 0 \/ 100 < p -> calculatePercentile a p = None).
Proof.
  split; [reflexivity|]. split; [|split].
  - apply calculatePercentile_nil.
  - intros x p. unfold calculatePercentile.
    assert (E : p / 100 * (inject_Z (Z.of_nat (length [x])) - 1) == inject_Z 0).
    { cbn [length]. change (inject_Z (Z.of_nat 1)) with 1. field. }
    assert (Ef : JS.floor (p / 100 * (inject_Z (Z.of_nat (length [x])) - 1)) = 0%Z)
      by (unfold JS.floor; rewrite E; apply Qfloor_Z).
    assert (Ec : JS.ceil (p / 100 * (inject_Z (Z.of_nat (length [x])) - 1)) = 0%Z)
      by (unfold JS.ceil; rewrite E; apply Qceiling_Z).
    rewrite Ef, Ec. reflexivity.
  - intros a p Hlen Hp. unfold calculatePercentile.
    assert (H2n : 2 <= inject_Z (Z.of_nat (length a))).
    { change 2 with (inject_Z 2). rewrite <- Zle_Qle. lia. }
    set (n := Z.of_nat (length a)) in *.
    set (i := p / 100 * (inject_Z n - 1)).
    assert (Hi : i < 0 \/ inject_Z (n - 1) < i).
    { unfold i. unfold Z.sub. rewrite inject_Z_plus, inject_Z_opp. change (inject_Z 1) with 1.
      set (m := inject_Z n) in *. clearbody m.
      assert (Eq : p / 100 == p * (1 # 100)) by (field).
      rewrite Eq. destruct Hp as [Hp | Hp]; [left | right].
      - assert (0 < (- p) * (1 # 100) * (m - 1)).
        { apply Qmult_lt_0_compat; [|lra]. lra. }
        lra.
      - assert (0 < (p * (1 # 100) - 1) * (m - 1)).
        { apply Qmult_lt_0_compat; lra. }
        lra. }
    clearbody i. destruct Hi as [Hi | Hi].
    + assert (Hf : (JS.floor i < 0)%Z).
      { unfold JS.floor. rewrite Zlt_Qlt. eapply Qle_lt_trans; [apply Qfloor_le | exact Hi]. }
      rewrite (index_out_of_range a (JS.floor i)) by lia.
      now destruct (_ =? _)%Z.
    + assert (Hc : (n - 1 < JS.ceil i)%Z).
      { unfold JS.ceil. rewrite Zlt_Qlt. eapply Qlt_le_trans; [exact Hi | apply Qle_ceiling]. }
      destruct (JS.floor i =? JS.ceil i)%Z eqn:E.
      * apply Z.eqb_eq in E. rewrite E. apply index_out_of_range. unfold n in *. lia.
      * rewrite (index_out_of_range a (JS.ceil i)) by (unfold n in *; lia).
        now destruct (JS.index a (JS.floor i)).
Qed.

(** The last part on the array 10, 20 at the percentile 150. *)
Lemma calculatePercentile_edges_witness : calculatePercentile [10; 20] 150 = None.
Proof.
  apply (proj2 (proj2 (proj2 calculatePercentile_edges))).
  - cbn. lia.
  - right. reflexivity.
Defined.

End OrderStatistics.

(** ** processData.js: the market matrix *)

Section MatrixBuckets.




End MatrixBuckets.

(** ** utils.js *)

Section SplitPriceRange.

Local Open Scope Q_scope.

Lemma floor_minus_one (x : Q) : JS.floor (x - 1) = (JS.floor x - 1)%Z.
Proof.
  apply floor_unique.
  - unfold Z.sub. rewrite inject_Z_plus, inject_Z_opp. change (inject_Z 1) with 1.
    pose proof (Qfloor_le x). unfold JS.floor. lra.
  - replace (JS.floor x - 1 + 1)%Z with (JS.floor x) by lia.
    pose proof (Qlt_floor x) as H. rewrite inject_Z_plus in H.
    change (inject_Z 1) with 1 in H. unfold JS.floor. lra.
Qed.

Lemma floor_integer_plus (z : Z) (x : Q) : 0 <= x -> (z <= JS.floor (inject_Z z + x))%Z.
Proof.
  intros Hx. unfold JS.floor. rewrite <- (Qfloor_Z z) at 1. apply Qfloor_resp_le. lra.
Qed.

Lemma splitPriceRange_lookup (priceRange : PriceRange.t) (upper : Z) (splits i : nat) :
  PriceRange.max priceRange = Some upper -> upper <> 0%Z -> (i < splits)%nat ->
  Utils.splitPriceRange priceRange splits !! i =
  Some {| PriceRange.label :=
            pretty (JS.floor (inject_Z (PriceRange.min priceRange)
                              + (inject_Z upper - inject_Z (PriceRange.min priceRange))
                                / inject_Z (Z.of_nat splits) * inject_Z (Z.of_nat i)))
            +:+ "-" +:+
            pretty (if (i =? splits - 1)%nat then upper
                    else JS.floor (inject_Z (PriceRange.min priceRange)
                                   + (inject_Z upper - inject_Z (PriceRange.min priceRange))
                                     / inject_Z (Z.of_nat splits)
                                     * (inject_Z (Z.of_nat i) + 1) - 1));
          PriceRange.min :=
            JS.floor (inject_Z (PriceRange.min priceRange)
                      + (inject_Z upper - inject_Z (PriceRange.min priceRange))
                        / inject_Z (Z.of_nat splits) * inject_Z (Z.of_nat i));
          PriceRange.max :=
            Some (if (i =? splits - 1)%nat then upper
                  else JS.floor (inject_Z (PriceRange.min priceRange)
                                 + (inject_Z upper - inject_Z (PriceRange.min priceRange))
                                   / inject_Z (Z.of_nat splits)
                                   * (inject_Z (Z.of_nat i) + 1) - 1)) |}.
Proof.
  intros Hmax Hnz Hi. unfold Utils.splitPriceRange. rewrite Hmax.
  destruct (upper =? 0)%Z eqn:E; [apply Z.eqb_eq in E; contradiction|].
  rewrite list_lookup_fmap, lookup_seq_lt by exact Hi. reflexivity.
Qed.

(** X9. [splitPriceRange] cuts a bounded price range into the requested
    number of whole-dollar parts that follow each other without gap or
    overlap: the first part starts at the lower bound, the last ends at the
    upper bound, each next part starts one dollar above the end of the part
    before it, and when the range is not empty all parts lie within it.  A
    range without upper bound ([null] or 0) is returned unsplit. *)
Theorem splitPriceRange_partition (priceRange : PriceRange.t) (splits : nat) :
  (forall upper,
      PriceRange.max priceRange = Some upper -> upper <> 0%Z -> (0 < splits)%nat ->
      length (Utils.splitPriceRange priceRange splits) = splits /\
      PriceRange.min <$> head (Utils.splitPriceRange priceRange splits)
        = Some (PriceRange.min priceRange) /\
      PriceRange.max <$> last (Utils.splitPriceRange priceRange splits)
        = Some (Some upper) /\
      (forall i r r',
          Utils.splitPriceRange priceRange splits !! i = Some r ->
          Utils.splitPriceRange priceRange splits !! Datatypes.S i = Some r' ->
          exists m, PriceRange.max r = Some m /\ PriceRange.min r' = (m + 1)%Z) /\
      ((PriceRange.min priceRange <= upper)%Z ->
       forall i r, Utils.splitPriceRange priceRange splits !! i = Some r ->
         exists m, PriceRange.max r = Some m /\
                   (PriceRange.min priceRange <= PriceRange.min r)%Z /\ (m <= upper)%Z)) /\
  (PriceRange.max priceRange = None \/ PriceRange.max priceRange = Some 0%Z ->
   Utils.splitPriceRange priceRange splits = [priceRange]).
Proof.
  split.
  2:{ intros [H | H]; unfold Utils.splitPriceRange; rewrite H; reflexivity. }
  intros upper Hmax Hnz Hpos.
  pose proof (fun i => splitPriceRange_lookup priceRange upper splits i Hmax Hnz) as Hlook.
  assert (Hlen : length (Utils.splitPriceRange priceRange splits) = splits).
  { unfold Utils.splitPriceRange. rewrite Hmax.
    destruct (upper =? 0)%Z eqn:E; [apply Z.eqb_eq in E; contradiction|].
    now rewrite length_fmap, length_seq. }
  set (lower := inject_Z (PriceRange.min priceRange)) in *.
  set (size := (inject_Z upper - lower) / inject_Z (Z.of_nat splits)) in *.
  assert (Hs : 0 < inject_Z (Z.of_nat splits)).
  { change 0 with (inject_Z 0). rewrite <- Zlt_Qlt. lia. }
  split; [exact Hlen|]. split; [|split; [|split]].
  - rewrite head_lookup, (Hlook 0%nat Hpos). cbn [fmap option_fmap option_map PriceRange.min].
    f_equal. change (inject_Z (Z.of_nat 0)) with 0.
    apply floor_unique; [|rewrite inject_Z_plus; change (inject_Z 1) with 1];
      fold lower; clearbody size lower; lra.
  - rewrite last_lookup, Hlen, (Hlook (Nat.pred splits)) by lia.
    cbn [fmap option_fmap option_map PriceRange.max].
    replace (Nat.pred splits =? splits - 1)%nat with true
      by (symmetry; apply Nat.eqb_eq; lia).
    reflexivity.
  - intros i r r' Hr Hr'.
    assert (Hi : (Datatypes.S i < splits)%nat).
    { apply lookup_lt_Some in Hr'. lia. }
    rewrite Hlook in Hr by lia. rewrite Hlook in Hr' by exact Hi.
    apply (inj Some) in Hr, Hr'. subst r r'. cbn [PriceRange.max PriceRange.min].
    replace (i =? splits - 1)%nat with false by (symmetry; apply Nat.eqb_neq; lia).
    eexists. split; [reflexivity|]. rewrite floor_minus_one.
    replace (inject_Z (Z.of_nat (Datatypes.S i))) with (inject_Z (Z.of_nat i + 1)) by (f_equal; lia).
    unfold JS.floor. rewrite inject_Z_plus. change (inject_Z 1) with 1. lia.
  - intros Hle i r Hr.
    assert (Hi : (i < splits)%nat) by (apply lookup_lt_Some in Hr; lia).
    rewrite Hlook in Hr by exact Hi. apply (inj Some) in Hr. subst r.
    cbn [PriceRange.max PriceRange.min]. eexists. split; [reflexivity|].
    assert (Hwidth : 0 <= inject_Z upper - lower).
    { unfold lower. rewrite Zle_Qle in Hle. lra. }
    assert (Hsize : 0 <= size).
    { apply Qle_shift_div_l; [exact Hs | clearbody lower; lra]. }
    assert (Hfull : size * inject_Z (Z.of_nat splits) == inject_Z upper - lower).
    { unfold size. clearbody lower. field. lra. }
    assert (Hlow : lower = inject_Z (PriceRange.min priceRange)) by reflexivity.
    clearbody size lower.
    assert (Hi0 : 0 <= inject_Z (Z.of_nat i)).
    { change 0 with (inject_Z 0). rewrite <- Zle_Qle. lia. }
    split.
    + rewrite Hlow. apply floor_integer_plus. apply Qmult_le_0_compat; assumption.
    + destruct (i =? splits - 1)%nat; [lia|].
      rewrite floor_minus_one.
      assert (Hi1 : inject_Z (Z.of_nat i) + 1 <= inject_Z (Z.of_nat splits)).
      { change 1 with (inject_Z 1). rewrite <- inject_Z_plus, <- Zle_Qle. lia. }
      assert (Hle' : (JS.floor (lower + size * (inject_Z (Z.of_nat i) + 1)) <= upper)%Z).
      { unfold JS.floor. rewrite <- (Qfloor_Z upper). apply Qfloor_resp_le.
        assert (size * (inject_Z (Z.of_nat i) + 1) <= size * inject_Z (Z.of_nat splits)).
        { rewrite !(Qmult_comm size). apply Qmult_le_compat_r; assumption. }
        lra. }
      lia.
Qed.

(** The theorem on the range 50000-190000 cut into three parts. *)
Lemma splitPriceRange_partition_witness :
  length (Utils.splitPriceRange Scenario.price_mid 3) = 3%nat /\
  PriceRange.min <$> head (Utils.splitPriceRange Scenario.price_mid 3) = Some 50000%Z /\
  PriceRange.max <$> last (Utils.splitPriceRange Scenario.price_mid 3)
    = Some (Some 190000%Z).
Proof.
  destruct (proj1 (splitPriceRange_partition Scenario.price_mid 3) 190000%Z)
    as (H1 & H2 & H3 & _).
  - reflexivity.
  - discriminate.
  - lia.
  - exact (conj H1 (conj H2 H3)).
Defined.

End SplitPriceRange.

Section ResultCount.

Lemma first_number_skips (pre s : string) :
  Utils.first_number pre = None -> Utils.first_number (pre +:+ s) = Utils.first_number s.
Proof.
  induction pre as [|x pre IH]; intros Hpre; [reflexivity|].
  rewrite append_cons. cbn [Utils.first_number] in *.
  destruct (JS.digit_val x); [discriminate|]. now apply IH.
Qed.

Lemma first_number_run (a : string) (c : ascii) (rest : string) :
  JS.all_digits a = true -> a <> EmptyString -> JS.digit_val c = None ->
  Utils.first_number (a +:+ String c rest) = Utils.first_number a.
Proof.
  intros Ha Hne Hc. destruct a as [|x a]; [congruence|].
  pose proof Ha as Hx. cbn [JS.all_digits] in Hx.
  rewrite append_cons. cbn [Utils.first_number].
  destruct (JS.digit_val x) eqn:Ex; [|discriminate].
  rewrite <- append_cons. now rewrite (digits_stop (String x a) c rest 0 0 Ha Hc).
Qed.

(** X10. [checkResultCount] reads the first run of digits of the count text
    and nothing else: text before it that holds no digit and everything from
    the first character after it on are ignored, so that a count written with
    a thousands separator is read as its leading group only.  A text without
    any digit, and a count element that cannot be read, give the count 0,
    which does not exceed any limit. *)
Theorem checkResultCount_first_number (limit : N) :
  (forall (pre a : string) (c : ascii) (rest : string),
      Utils.first_number pre = None ->
      JS.all_digits a = true -> a <> EmptyString -> JS.digit_val c = None ->
      Utils.checkResultCount (Some (pre +:+ a +:+ String c rest)) limit =
      Utils.checkResultCount (Some a) limit) /\
  (forall text : string,
      Utils.first_number text = None ->
      Utils.checkResultCount (Some text) limit = (0%N, false)) /\
  Utils.checkResultCount None limit = (0%N, false).
Proof.
  split; [|split].
  - intros pre a c rest Hpre Ha Hne Hc. unfold Utils.checkResultCount.
    now rewrite first_number_skips, first_number_run.
  - intros text Hnone. unfold Utils.checkResultCount. rewrite Hnone.
    cbn [default]. now destruct limit.
  - reflexivity.
Qed.

(** The theorem on a count of 1,234 homes against the limit 300: the count
    read is 1. *)
Lemma checkResultCount_first_number_witness :
  Utils.checkResultCount (Some ("Showing " +:+ "1" +:+ String ","%char "234 homes")) 300 =
  Utils.checkResultCount (Some "1"%string) 300 /\
  Utils.checkResultCount (Some "1"%string) 300 = (1%N, false).
Proof.
  split; [|reflexivity].
  apply (proj1 (checkResultCount_first_number 300));
    [reflexivity | reflexivity | discriminate | reflexivity].
Defined.

End ResultCount.

Section SafeNames.

Lemma safe_label_cons (c : ascii) (label : string) :
  Utils.safe_label (String c label) =
  String (if Utils.safe_char c then c else "_"%char) (Utils.safe_label label).
Proof. unfold Utils.safe_label. cbn [JS.replace_class]. now destruct (Utils.safe_char c). Qed.

(** X11. The label cleaning of [createSafeFilename] keeps the length of the
    label and every allowed character (letters, digits, dot, hyphen) in its
    place, writes an underscore at every other position, and changes nothing
    when applied a second time; labels that differ only in characters that are
    not allowed get the same file-name part. *)
Theorem safe_label_sanitises (label : string) :
  String.length (Utils.safe_label label) = String.length label /\
  (forall (i : nat) (c : ascii),
      String.get i label = Some c ->
      String.get i (Utils.safe_label label) =
        Some (if Utils.safe_char c then c else "_"%char)) /\
  Utils.safe_label (Utils.safe_label label) = Utils.safe_label label /\
  (forall other : string,
      String.length other = String.length label ->
      (forall i c d, String.get i label = Some c -> String.get i other = Some d ->
                     c = d \/ (Utils.safe_char c = false /\ Utils.safe_char d = false)) ->
      Utils.safe_label other = Utils.safe_label label).
Proof.
  split; [|split; [|split]].
  - induction label as [|c label IH]; [reflexivity|].
    rewrite safe_label_cons. cbn [String.length]. now rewrite IH.
  - induction label as [|x label IH]; intros i c Hget; [destruct i; discriminate|].
    rewrite safe_label_cons. destruct i as [|i]; cbn [String.get] in *.
    + now injection Hget as ->.
    + now apply IH.
  - induction label as [|c label IH]; [reflexivity|].
    rewrite !safe_label_cons, IH. f_equal.
    destruct (Utils.safe_char c) eqn:E; [now rewrite E | reflexivity].
  - induction label as [|c label IH]; intros other Hlen Hsame.
    + now destruct other.
    + destruct other as [|d other]; [discriminate|].
      rewrite !safe_label_cons. f_equal.
      * destruct (Hsame 0%nat c d eq_refl eq_refl) as [-> | [-> ->]]; reflexivity.
      * apply IH; [now injection Hlen|].
        intros i x y Hx Hy. exact (Hsame (Datatypes.S i) x y Hx Hy).
Qed.

(** The theorem on the labels [5+] and [5 ], which share the file-name part
    [5_]. *)
Lemma safe_label_sanitises_witness :
  Utils.safe_label "5 " = Utils.safe_label "5+" /\ Utils.safe_label "5+" = "5_"%string.
Proof.
  split; [|reflexivity].
  apply (proj2 (proj2 (proj2 (safe_label_sanitises "5+")))); [reflexivity|].
  intros [|[|i]] c d Hc Hd; cbn in Hc, Hd.
  - left. congruence.
  - right. injection Hc as <-. injection Hd as <-. split; reflexivity.
  - discriminate.
Defined.

End SafeNames.

Section LogFile.





Lemma logContent_app (a b : list JS.JObject) :
  Utils.logContent (a ++ b) = Utils.logContent a +:+ Utils.logContent b.
Proof.
  induction a as [|entry a IH]; [reflexivity|].
  cbn [app Utils.logContent]. now rewrite IH, !append_assoc.
Qed.


Lemma isAlreadyDownloaded_grows (ledger more : list JS.JObject) (zip : string)
    (sizeRange : SizeRange.t) (priceRange : PriceRange.t) :
  Utils.isAlreadyDownloaded ledger zip sizeRange priceRange = true ->
  Utils.isAlreadyDownloaded (ledger ++ more) zip sizeRange priceRange = true.
Proof.
  unfold Utils.isAlreadyDownloaded. destruct ledger as [|first rest]; [discriminate|].
  cbn [app]. rewrite !includes_iff. change (first :: rest ++ more) with ((first :: rest) ++ more).
  rewrite logContent_app. apply occurs_in_app_l.
Qed.

(** X13. The skip check can only go from false to true while a log grows:
    once [isAlreadyDownloaded] answers true for a query it answers true after
    any further entries have been appended, whatever they are.  On a log that
    does not exist yet it answers false for every query. *)
Theorem isAlreadyDownloaded_monotone (ledger more : list JS.JObject) (zip : string)
    (sizeRange : SizeRange.t) (priceRange : PriceRange.t) :
  (Utils.isAlreadyDownloaded ledger zip sizeRange priceRange = true ->
   Utils.isAlreadyDownloaded (ledger ++ more) zip sizeRange priceRange = true) /\
  Utils.isAlreadyDownloaded [] zip sizeRange priceRange = false.
Proof. split; [apply isAlreadyDownloaded_grows | reflexivity]. Qed.

(** The theorem on the log after the download of (1-3, 0-50000), to which an
    error entry for another query is appended. *)
Lemma isAlreadyDownloaded_monotone_witness :
  Utils.isAlreadyDownloaded
    (Scenario.ledger_after Scenario.band_three Scenario.price_low
       ++ [DownloadRedfinData.error_info "Okaloosa" Scenario.band_three Scenario.price_mid
             "Login failed" "https://www.redfin.com"])
    "Okaloosa" Scenario.band_three Scenario.price_low = true.
Proof.
  apply (proj1 (isAlreadyDownloaded_monotone
                  (Scenario.ledger_after Scenario.band_three Scenario.price_low) _
                  "Okaloosa" Scenario.band_three Scenario.price_low)).
  vm_compute. reflexivity.
Defined.

End LogFile.

(** ** downloadRedfinData.js: the run as a whole *)

Section Accounting.

Import DownloadRedfinData.








End Accounting.

Section Reruns.

Import DownloadRedfinData.

Local Ltac unfold_steps :=
  cbv [try_block login_branch save_download createSafeFilename rename clicked
       logDownload waitForTimeout catch_block
       JS.await JS.try_catch JS.bind JS.ret JS.throw JS.continue JS.get JS.modify
       mbind mret JS.step_bind JS.step_ret] in *.

(** A query that the skip check finds is passed over. *)
Lemma process_query_skips (w : World) (config : Config) (s : SizeRange.t)
    (p : PriceRange.t) (st : Run) :
  Utils.isAlreadyDownloaded (ledger st) (county config) s p = true ->
  process_query w config s p st = (JS.Continue, incr_skipped st).
Proof.
  intros Hfound. unfold process_query. unfold_steps. now rewrite Hfound.
Qed.

Lemma run_queries_all_skipped (w : World) (config : Config)
    (qs : list (SizeRange.t * PriceRange.t)) (st : Run) :
  (forall q, q ∈ qs ->
     Utils.isAlreadyDownloaded (ledger st) (county config) (fst q) (snd q) = true) ->
  run_queries w config qs st = (JS.Normal tt, Nat.iter (length qs) incr_skipped st).
Proof.
  revert st. induction qs as [|[s p] qs IH]; intros st Hall; [reflexivity|].
  unfold run_queries in *. cbn [JS.for_of fst snd length].
  rewrite process_query_skips by (apply (Hall (s, p)); left).
  rewrite IH by (intros q Hq; apply (Hall q); now right).
  now rewrite Nat.iter_succ_r.
Qed.

Lemma iter_incr_skipped (n : nat) (st : Run) :
  Nat.iter n incr_skipped st =
  {| ledger := ledger st; files := files st; ticks := ticks st;
     totalDownloads := totalDownloads st; successfulDownloads := successfulDownloads st;
     skippedDownloads := n + skippedDownloads st; waits := waits st |}.
Proof.
  induction n as [|n IH]; [now destruct st|].
  rewrite Nat.iter_succ, IH. reflexivity.
Qed.

(** X15. A run in whose log the skip check finds every query of the
    configuration does nothing but count: whatever the browser would answer,
    the log, the files, the clock and the counters of attempts and successes
    stay as they were, no pause is taken, and the counter of skipped
    queries goes up by the number of queries. *)
Theorem downloadRedfinData_all_skipped (w : World) (config : Config) (st : Run) :
  (forall q, q ∈ queries config ->
     Utils.isAlreadyDownloaded (ledger st) (county config) (fst q) (snd q) = true) ->
  downloadRedfinData w config st =
  (JS.Normal tt,
   {| ledger := ledger st; files := files st; ticks := ticks st;
      totalDownloads := totalDownloads st; successfulDownloads := successfulDownloads st;
      skippedDownloads := length (queries config) + skippedDownloads st;
      waits := waits st |}).
Proof.
  intros Hall. rewrite downloadRedfinData_flat, run_queries_all_skipped by exact Hall.
  now rewrite iter_incr_skipped.
Qed.

(** The theorem on a second run over the log of the download of
    (1-3, 0-50000), with a browser that cannot reach the site. *)
Lemma downloadRedfinData_all_skipped_witness :
  downloadRedfinData Scenario.world_unreachable
    (Scenario.one_query Scenario.band_three Scenario.price_low)
    (start (Scenario.ledger_after Scenario.band_three Scenario.price_low)) =
  (JS.Normal tt,
   {| ledger := Scenario.ledger_after Scenario.band_three Scenario.price_low;
      files := ∅; ticks := 0; totalDownloads := 0; successfulDownloads := 0;
      skippedDownloads := 1; waits := [] |}).
Proof.
  apply (downloadRedfinData_all_skipped Scenario.world_unreachable
           (Scenario.one_query Scenario.band_three Scenario.price_low)
           (start (Scenario.ledger_after Scenario.band_three Scenario.price_low))).
  intros q Hq. vm_compute in Hq. apply list_elem_of_singleton in Hq. subst q.
  vm_compute. reflexivity.
Defined.

(** What an iteration does on a page on which the download goes through at
    once. *)
Lemma process_query_downloads (w : World) (config : Config) (s : SizeRange.t)
    (p : PriceRange.t) (st : Run) :
  downloads_at_once (page w s p) ->
  Utils.isAlreadyDownloaded (ledger st) (county config) s p = false ->
  ledger (snd (process_query w config s p st)) =
  ledger st ++
    [JS.obj_spread [("timestamp"%string, JS.JStr (isoTime w (Datatypes.S (ticks st))))]
       (success_info (county config) s p (searchCount (page w s p))
          (Utils.createSafeFilename (county config) s p None (nowMs w (ticks st)))
          (searchUrl config s p))].
Proof.
  intros (Hgo & Hcount & Hbutton & Hclick & Hmodal & ([path content] & Hfile) & Hmove) Hnew.
  unfold process_query, try_block, maxAttempts. cbn [navigate]. unfold_steps.
  apply N.eqb_neq in Hcount.
  rewrite Hnew, Hgo, Hcount, Hbutton, Hclick, Hmodal, Hfile, Hmove. reflexivity.
Qed.

(** After its iteration on such a page, a query with clean labels is found by
    the skip check, and the log has only grown. *)
Lemma process_query_leaves_trace (w : World) (config : Config) (s : SizeRange.t)
    (p : PriceRange.t) (st : Run) :
  JS.escape (county config) = county config ->
  Utils.safe_label (SizeRange.label s) = SizeRange.label s ->
  Utils.safe_label (PriceRange.label p) = PriceRange.label p ->
  downloads_at_once (page w s p) ->
  Utils.isAlreadyDownloaded (ledger (snd (process_query w config s p st)))
    (county config) s p = true /\
  exists more, ledger (snd (process_query w config s p st)) = ledger st ++ more.
Proof.
  intros Hcounty Hs Hp Hpage.
  destruct (Utils.isAlreadyDownloaded (ledger st) (county config) s p) eqn:E.
  - rewrite process_query_skips by exact E. cbn [snd incr_skipped ledger].
    split; [exact E|]. exists []. now rewrite app_nil_r.
  - rewrite (process_query_downloads w config s p st Hpage E).
    split; [|eexists; reflexivity].
    eapply isAlreadyDownloaded_after_success; [exact Hcounty | exact Hs | exact Hp |].
    apply elem_of_app. right. apply list_elem_of_singleton. reflexivity.
Qed.

Lemma run_queries_leaves_traces (w : World) (config : Config)
    (qs : list (SizeRange.t * PriceRange.t)) (st : Run) :
  JS.escape (county config) = county config ->
  (forall q, q ∈ qs ->
     Utils.safe_label (SizeRange.label (fst q)) = SizeRange.label (fst q) /\
     Utils.safe_label (PriceRange.label (snd q)) = PriceRange.label (snd q) /\
     downloads_at_once (page w (fst q) (snd q))) ->
  exists final more,
    run_queries w config qs st = (JS.Normal tt, final) /\
    ledger final = ledger st ++ more /\
    forall q, q ∈ qs ->
      Utils.isAlreadyDownloaded (ledger final) (county config) (fst q) (snd q) = true.
Proof.
  intros Hcounty. revert st. induction qs as [|[s p] qs IH]; intros st Hall.
  - exists st, []. split; [reflexivity|]. split; [now rewrite app_nil_r|].
    intros q Hq. inversion Hq.
  - destruct (Hall (s, p)) as (Hs & Hp & Hpage); [left|]. cbn [fst snd] in *.
    destruct (process_query_leaves_trace w config s p st Hcounty Hs Hp Hpage)
      as (Hfound & more1 & Hmore1).
    unfold run_queries in *. cbn [JS.for_of fst snd].
    destruct (process_query w config s p st) as [[[]|msg|] st1] eqn:E; cbn [snd] in *.
    2:{ exfalso. exact (process_query_no_throw _ _ _ _ _ _ _ E). }
    all: destruct (IH st1) as (final & more & Hrun & Hledger & Hrest);
      [intros q Hq; apply Hall; now right|];
      exists final, (more1 ++ more); split; [exact Hrun|];
      split; [now rewrite Hledger, Hmore1, app_assoc|];
      intros q Hq; apply elem_of_cons in Hq as [-> | Hq]; [|now apply Hrest];
      cbn [fst snd]; rewrite Hledger; now apply isAlreadyDownloaded_grows.
Qed.

Lemma getPriceRangesForSize_subset (sizeRange : SizeRange.t)
    (priceRanges : list PriceRange.t) (price : PriceRange.t) :
  price ∈ getPriceRangesForSize sizeRange priceRanges -> price ∈ priceRanges.
Proof.
  unfold getPriceRangesForSize. intros H.
  destruct (SizeRange.maxPrice sizeRange) as [cap|]; [|exact H].
  destruct (cap =? 0)%Z; [exact H|].
  apply list_elem_of_In in H. apply filter_In in H as [H _]. now apply list_elem_of_In.
Qed.

Lemma queries_from_config (config : Config) (q : SizeRange.t * PriceRange.t) :
  q ∈ queries config -> fst q ∈ sizeRanges config /\ snd q ∈ priceRanges config.
Proof.
  unfold queries. intros H.
  apply list_elem_of_bind in H as (s & H & Hs).
  apply list_elem_of_bind in H as (p & H & Hp).
  apply list_elem_of_singleton in H. subst q. cbn [fst snd].
  split; [exact Hs|]. eapply getPriceRangesForSize_subset, Hp.
Qed.

(** X16. Restarting after a clean run is safe when the names are clean: if
    the county needs no JSON escape, every size and price label of the
    configuration consists of letters, digits, dots and hyphens only, and
    every query's page delivers its download at the first attempt, then after
    the run every query of the configuration is found by the skip check, and
    a second run on the resulting log, whatever the browser answers then,
    skips every query and leaves the log as it is. *)
Theorem rerun_after_clean_run_skips_all (w w' : World) (config : Config) (st : Run) :
  JS.escape (county config) = county config ->
  (forall s, s ∈ sizeRanges config ->
     Utils.safe_label (SizeRange.label s) = SizeRange.label s) ->
  (forall p, p ∈ priceRanges config ->
     Utils.safe_label (PriceRange.label p) = PriceRange.label p) ->
  (forall q, q ∈ queries config -> downloads_at_once (page w (fst q) (snd q))) ->
  exists final,
    downloadRedfinData w config st = (JS.Normal tt, final) /\
    (forall q, q ∈ queries config ->
       Utils.isAlreadyDownloaded (ledger final) (county config) (fst q) (snd q) = true) /\
    downloadRedfinData w' config (start (ledger final)) =
    (JS.Normal tt,
     {| ledger := ledger final; files := ∅; ticks := 0; totalDownloads := 0;
        successfulDownloads := 0; skippedDownloads := length (queries config);
        waits := [] |}).
Proof.
  intros Hcounty Hsizes Hprices Hpages.
  destruct (run_queries_leaves_traces w config (queries config) st Hcounty)
    as (final & more & Hrun & _ & Hfound).
  { intros q Hq. destruct (queries_from_config config q Hq) as [Hs Hp].
    split; [now apply Hsizes|]. split; [now apply Hprices | now apply Hpages]. }
  exists final. split; [now rewrite downloadRedfinData_flat|]. split; [exact Hfound|].
  rewrite downloadRedfinData_flat, run_queries_all_skipped by exact Hfound.
  rewrite iter_incr_skipped. cbn. now rewrite Nat.add_0_r.
Qed.

(** The theorem on the two queries (1-3, 0-50000) and (1-3, 50000-190000),
    with a second run in which the site cannot be reached. *)
Lemma rerun_after_clean_run_skips_all_witness :
  exists final,
    downloadRedfinData Scenario.world_downloads Scenario.two_queries (start []) =
      (JS.Normal tt, final) /\
    (forall q, q ∈ queries Scenario.two_queries ->
       Utils.isAlreadyDownloaded (ledger final) "Okaloosa" (fst q) (snd q) = true) /\
    downloadRedfinData Scenario.world_unreachable Scenario.two_queries
      (start (ledger final)) =
    (JS.Normal tt,
     {| ledger := ledger final; files := ∅; ticks := 0; totalDownloads := 0;
        successfulDownloads := 0; skippedDownloads := 2; waits := [] |}).
Proof.
  apply (rerun_after_clean_run_skips_all Scenario.world_downloads
           Scenario.world_unreachable Scenario.two_queries (start [])).
  - reflexivity.
  - intros s Hs. apply list_elem_of_singleton in Hs. subst s. reflexivity.
  - intros p Hp. apply elem_of_cons in Hp as [-> | Hp]; [reflexivity|].
    apply list_elem_of_singleton in Hp. subst p. reflexivity.
  - intros q Hq. unfold downloads_at_once. cbn.
    repeat split; try reflexivity; try discriminate. eexists. reflexivity.
Defined.

End Reruns.

(** ** downloadRedfinData.js: the parts of an iteration *)

Section QueryParts.

Import DownloadRedfinData.

Lemma filter_sublist {A} (f : A -> bool) (l : list A) : sublist (List.filter f l) l.
Proof.
  induction l as [|x l IH]; cbn [List.filter]; [constructor|].
  destruct (f x); now constructor.
Qed.

(** X17. The price ranges chosen for a lot-size band are always a selection
    from the configured list in its order; a range without upper bound in the
    list is chosen for every band, whatever cap the band declares; a cap of 0
    counts as no cap; and choosing again from the chosen ranges changes
    nothing. *)
Theorem getPriceRangesForSize_selects (sizeRange : SizeRange.t)
    (priceRanges : list PriceRange.t) :
  sublist (getPriceRangesForSize sizeRange priceRanges) priceRanges /\
  (forall price, price ∈ priceRanges -> PriceRange.max price = None ->
     price ∈ getPriceRangesForSize sizeRange priceRanges) /\
  (SizeRange.maxPrice sizeRange = Some 0%Z ->
   getPriceRangesForSize sizeRange priceRanges = priceRanges) /\
  getPriceRangesForSize sizeRange (getPriceRangesForSize sizeRange priceRanges) =
    getPriceRangesForSize sizeRange priceRanges.
Proof.
  unfold getPriceRangesForSize.
  destruct (SizeRange.maxPrice sizeRange) as [cap|]; [|repeat split; auto; discriminate].
  destruct (cap =? 0)%Z eqn:E; [repeat split; auto|].
  split; [apply filter_sublist|]. split; [|split].
  - intros price Hin Hopen. apply list_elem_of_In, filter_In.
    split; [now apply list_elem_of_In | now rewrite Hopen].
  - intros [= ->]. discriminate.
  - induction priceRanges as [|x l IH]; [reflexivity|]. cbn [List.filter].
    destruct (match PriceRange.max x with Some m => (m <=? cap)%Z | None => true end) eqn:Ex;
      [|exact IH].
    cbn [List.filter]. now rewrite Ex, IH.
Qed.

Local Ltac unfold_steps :=
  cbv [try_block login_branch save_download createSafeFilename rename clicked
       logDownload waitForTimeout catch_block
       JS.await JS.try_catch JS.bind JS.ret JS.throw JS.continue JS.get JS.modify
       mbind mret JS.step_bind JS.step_ret] in *.

(** X18. A page whose result count cannot be read is written off as empty:
    when the page loads at the first attempt and the count that
    [checkResultCount] returns comes from a count element that is missing or
    holds no digit, the iteration logs the query with status no_results and
    the count 0 and goes on to the next query without a download; nothing is
    counted as an attempt, no file is touched, and the only pause is the two
    seconds after loading. *)
Theorem unreadable_count_logged_as_no_results (w : World) (config : Config)
    (sizeRange : SizeRange.t) (priceRange : PriceRange.t) (st : Run)
    (countText : option string) :
  Utils.isAlreadyDownloaded (ledger st) (county config) sizeRange priceRange = false ->
  goto (page w sizeRange priceRange) 1 = None ->
  searchCount (page w sizeRange priceRange) = fst (Utils.checkResultCount countText 300) ->
  (countText = None \/ exists text, countText = Some text /\ Utils.first_number text = None) ->
  process_query w config sizeRange priceRange st =
  (JS.Continue,
   tick (set_ledger
           (Utils.logDownload (isoTime w (ticks st))
              (skipped_info (county config) sizeRange priceRange 0 "no_results"
                 (searchUrl config sizeRange priceRange))
              (ledger st))
           (add_wait 2000 st))).
Proof.
  intros Hnew Hgo Hcount Hunreadable.
  assert (Hzero : searchCount (page w sizeRange priceRange) = 0%N).
  { rewrite Hcount. destruct Hunreadable as [-> | (text & -> & Hnone)]; [reflexivity|].
    unfold Utils.checkResultCount. now rewrite Hnone. }
  unfold process_query, try_block, maxAttempts. cbn [navigate]. unfold_steps.
  rewrite Hnew, Hgo, Hzero. reflexivity.
Qed.

(** The theorem on a page whose count element reads [No results]. *)
Lemma unreadable_count_logged_as_no_results_witness :
  (fun entry => (JS.obj_get entry "status", JS.obj_get entry "resultCount"))
    <$> ledger (snd (process_query Scenario.world_no_count
                       (Scenario.one_query Scenario.band_three Scenario.price_low)
                       Scenario.band_three Scenario.price_low (start []))) =
  [(Some (JS.JStr "no_results"), Some (JS.JNum 0))].
Proof.
  rewrite (unreadable_count_logged_as_no_results Scenario.world_no_count
             (Scenario.one_query Scenario.band_three Scenario.price_low)
             Scenario.band_three Scenario.price_low (start [])
             (Some "No results"%string));
    [reflexivity | reflexivity | reflexivity | reflexivity |].
  right. eexists. split; reflexivity.
Defined.


(** X20. The search URL does not depend on the county of the configuration:
    [buildRedfinUrl] always addresses county 482, Okaloosa County, in the
    state given, and two configurations that differ only in the county are
    sent to the same URL for every query. *)
Theorem buildRedfinUrl_ignores_county (county county' state : string)
    (sizeRange : SizeRange.t) (priceRange : PriceRange.t)
    (propertyType soldDateRange : string) :
  buildRedfinUrl county state sizeRange priceRange propertyType soldDateRange =
  buildRedfinUrl county' state sizeRange priceRange propertyType soldDateRange /\
  String.prefix ("https://www.redfin.com/county/482/" +:+ state +:+ "/Okaloosa-County/filter/")
    (buildRedfinUrl county state sizeRange priceRange propertyType soldDateRange) = true.
Proof.
  split; [reflexivity|]. apply prefix_iff. unfold buildRedfinUrl.
  eexists. rewrite !append_assoc. reflexivity.
Qed.

End QueryParts.

(** ** simpleDownload.js *)

Section Replay.

Import SimpleDownload.








Local Ltac unfold_steps :=
  cbv [save_intercepted login_detour traditional_download replay_failed
       timestamp logDownload writeFileSync
       JS.await JS.try_catch JS.bind JS.ret JS.throw JS.continue JS.get JS.modify
       mbind mret JS.step_bind JS.step_ret] in *.









End Replay.

(** ** processData.js: the mean of a bucket *)

Section BucketMean.

Local Open Scope Q_scope.






End BucketMean.

(** ** downloadRedfinData.js and utils.js: the download button and the skip key *)

Section DownloadButton.

Import DownloadRedfinData.

Lemma first_seen_spec (isVisible : string -> string + bool) (selectors : list string) :
  match first_seen isVisible selectors with
  | Some selector =>
      exists before after,
        selectors = before ++ selector :: after /\
        isVisible selector = inr true /\
        forall other, other ∈ before -> isVisible other <> inr true
  | None => forall other, other ∈ selectors -> isVisible other <> inr true
  end.
Proof.
  induction selectors as [|x selectors IH]; cbn [first_seen].
  - intros other Hin. inversion Hin.
  - unfold seen at 1. destruct (isVisible x) as [msg|[]] eqn:Ex.
    2:{ exists [], selectors. split; [reflexivity|]. split; [exact Ex|].
        intros other Hin. inversion Hin. }
    all: destruct (first_seen isVisible selectors) as [found|].
    all: try (destruct IH as (before & after & -> & Hfound & Hbefore);
              exists (x :: before), after; split; [reflexivity|]; split; [exact Hfound|];
              intros other Hin; apply elem_of_cons in Hin as [-> | Hin];
              [congruence | now apply Hbefore]).
    all: intros other Hin; apply elem_of_cons in Hin as [-> | Hin];
      [congruence | now apply IH].
Qed.

Lemma first_seen_app (isVisible : string -> string + bool) (l1 l2 : list string) :
  first_seen isVisible (l1 ++ l2) =
  match first_seen isVisible l1 with
  | Some selector => Some selector
  | None => first_seen isVisible l2
  end.
Proof.
  induction l1 as [|x l1 IH]; cbn [app first_seen]; [reflexivity|].
  now destruct (seen isVisible x).
Qed.

(** X24. [findDownloadButton] returns the first element, in the order of its
    eight selectors followed by the text pattern, whose visibility check
    answers true; a check that throws counts as not visible; and it returns
    [null] exactly when no check answers true.  It never throws. *)
Theorem findDownloadButton_first_visible (isVisible : string -> string + bool) :
  match findDownloadButton isVisible with
  | Some selector =>
      exists before after,
        downloadSelectors ++ [downloadText] = before ++ selector :: after /\
        isVisible selector = inr true /\
        forall other, other ∈ before -> isVisible other <> inr true
  | None =>
      forall other, other ∈ downloadSelectors ++ [downloadText] ->
                    isVisible other <> inr true
  end.
Proof.
  assert (E : findDownloadButton isVisible =
              first_seen isVisible (downloadSelectors ++ [downloadText])).
  { unfold findDownloadButton. rewrite first_seen_app. cbn [first_seen].
    destruct (first_seen isVisible downloadSelectors); [reflexivity|].
    now destruct (seen isVisible downloadText). }
  rewrite E. apply first_seen_spec.
Qed.

End DownloadButton.

Section KeyCollisions.

Lemma occurs_in_trans (a b c : string) :
  JS.occurs_in a b -> JS.occurs_in b c -> JS.occurs_in a c.
Proof.
  intros (p1 & q1 & ->) (p2 & q2 & ->).
  exists (p2 +:+ p1), (q1 +:+ q2). now rewrite !append_assoc.
Qed.

Lemma isAlreadyDownloaded_key (ledger : list JS.JObject) (zip zip' : string)
    (s s' : SizeRange.t) (p p' : PriceRange.t) :
  JS.occurs_in (zip +:+ "_" +:+ SizeRange.label s +:+ "_" +:+ PriceRange.label p)
               (zip' +:+ "_" +:+ SizeRange.label s' +:+ "_" +:+ PriceRange.label p') ->
  Utils.isAlreadyDownloaded ledger zip' s' p' = true ->
  Utils.isAlreadyDownloaded ledger zip s p = true.
Proof.
  unfold Utils.isAlreadyDownloaded. destruct ledger as [|first rest]; [discriminate|].
  rewrite !includes_iff. apply occurs_in_trans.
Qed.

(** X25. The skip check confuses queries whose keys contain one another:
    whenever [isAlreadyDownloaded] answers true for a query, it also answers
    true for every query of the same county and size label whose price label
    is a beginning of that query's price label, and for every query with the
    same labels whose county is an ending of that query's county.  So the
    query 0-50000 is skipped once 0-500000 is in the log. *)
Theorem isAlreadyDownloaded_key_collisions (ledger : list JS.JObject) (zip : string)
    (sizeRange : SizeRange.t) (priceRange : PriceRange.t) :
  (forall longer : PriceRange.t,
      String.prefix (PriceRange.label priceRange) (PriceRange.label longer) = true ->
      Utils.isAlreadyDownloaded ledger zip sizeRange longer = true ->
      Utils.isAlreadyDownloaded ledger zip sizeRange priceRange = true) /\
  (forall before : string,
      Utils.isAlreadyDownloaded ledger (before +:+ zip) sizeRange priceRange = true ->
      Utils.isAlreadyDownloaded ledger zip sizeRange priceRange = true).
Proof.
  split.
  - intros longer Hprefix. apply prefix_iff in Hprefix as [rest Hrest].
    apply isAlreadyDownloaded_key. rewrite Hrest.
    exists EmptyString, rest. change (EmptyString +:+ ?x) with x.
    now rewrite !append_assoc.
  - intros before. apply isAlreadyDownloaded_key.
    exists before, EmptyString. now rewrite append_nil_r, !append_assoc.
Qed.

(** The theorem on the log after the download of (1-3, 0-500000) and the
    query (1-3, 0-50000). *)
Lemma isAlreadyDownloaded_key_collisions_witness :
  Utils.isAlreadyDownloaded (Scenario.ledger_after Scenario.band_three Scenario.price_wide)
    "Okaloosa" Scenario.band_three Scenario.price_low = true.
Proof.
  apply (proj1 (isAlreadyDownloaded_key_collisions
                  (Scenario.ledger_after Scenario.band_three Scenario.price_wide)
                  "Okaloosa" Scenario.band_three Scenario.price_low)
           Scenario.price_wide).
  - reflexivity.
  - vm_compute. reflexivity.
Defined.

End KeyCollisions.
